(** * code_explainer: the JSON code-snippet extractor and its request handler

    A shallow embedding of [src/code_explainer/code_explainer.py]
    ([CODE_TOKEN_RE], [normalize_code], [extract_code_from_json] and the
    resolution part of [explain_json_route]), followed by the properties
    the specification states about them.

    Modelling conventions.
    - A Python [str] is a [string]; an [ascii] stands for the code point of
      the same number, so the strings covered are those whose code points
      are below 256.  The character tables ([isspace], [isword]) are the
      ones CPython uses, cut to that range.
    - A JSON document as [json.loads] / [get_json] returns it is a [json];
      a [dict] is an association list in insertion order (a dict has no
      repeated key: see [wf]).
    - A raised exception is a value [Raise e] of [result]; an exception
      that leaves the view function is the reply [Unhandled].
    - Not modelled: the interpreter's recursion limit, the digit limit of
      [int] and [str] on very long numerals ([int] raises [ValueError] on a
      numeral of more than 4300 digits, where [Str.int] converts it), and
      what [print] writes. *)

From Stdlib Require Import Bool Arith ZArith Lia List Ascii String.
From Stdlib Require Import Permutation Sorted.
From Stdlib Require Import DecimalString DecimalFacts DecimalZ PrimFloat.
Import ListNotations.

Set Warnings "-register-all".

Local Open Scope list_scope.
Local Open Scope string_scope.

(* ------------------------------------------------------------------ *)
(** ** Exceptions *)

Inductive exn : Set :=
| AttributeError | IndexError | KeyError | TypeError | ValueError.

Inductive result (A : Type) : Type :=
| Ok (a : A)
| Raise (e : exn).

Arguments Ok {A} a.
Arguments Raise {A} e.

Definition bind {A B : Type} (r : result A) (k : A -> result B) : result B :=
  match r with
  | Ok a => k a
  | Raise e => Raise e
  end.

Notation "x <- r ;; k" := (bind r (fun x => k))
  (at level 61, r at next level, right associativity).

(* ------------------------------------------------------------------ *)
(** ** The [str] methods the program calls *)

Module Str.

Definition newline : ascii := "010"%char.

Definition between (lo hi : nat) (a : ascii) : bool :=
  let n := nat_of_ascii a in (lo <=? n)%nat && (n <=? hi)%nat.

(** [str.isspace] of one character; it is also what [str.strip()] removes
    and what [\s] matches in a [str] pattern. *)
Definition isspace (a : ascii) : bool :=
  between 9 13 a || between 28 32 a || between 133 133 a || between 160 160 a.

(** [\w] of a [str] pattern: alphanumeric (as [str.isalnum]) or [_]. *)
Definition isword (a : ascii) : bool :=
  between 48 57 a || between 65 90 a || between 97 122 a || between 95 95 a
  || between 170 170 a || between 178 179 a || between 181 181 a
  || between 185 186 a || between 188 190 a || between 192 214 a
  || between 216 246 a || between 248 255 a.

(** Lower case of a character, for comparing with the ASCII letters of a
    pattern: no other character below 256 lowers to an ASCII letter. *)
Definition lower (a : ascii) : ascii :=
  if between 65 90 a then ascii_of_nat (nat_of_ascii a + 32) else a.

Fixpoint lstrip (s : string) : string :=
  match s with
  | String a s' => if isspace a then lstrip s' else s
  | EmptyString => EmptyString
  end.

Fixpoint rstrip (s : string) : string :=
  match s with
  | String a s' =>
      match rstrip s' with
      | EmptyString => if isspace a then EmptyString else String a EmptyString
      | r => String a r
      end
  | EmptyString => EmptyString
  end.

(** [s.strip()] *)
Definition strip (s : string) : string := rstrip (lstrip s).

(** [s.count(c)] for a one-character [c] *)
Fixpoint count (s : string) (c : ascii) : Z :=
  match s with
  | String a s' => ((if Ascii.eqb a c then 1 else 0) + count s' c)%Z
  | EmptyString => 0%Z
  end.

(** [s.split(c)] for a one-character separator [c] *)
Fixpoint split (s : string) (c : ascii) : list string :=
  match s with
  | String a s' =>
      if Ascii.eqb a c then EmptyString :: split s' c
      else match split s' c with
           | part :: parts => String a part :: parts
           | [] => [String a EmptyString]
           end
  | EmptyString => [EmptyString]
  end.

(** [sep.join(parts)] *)
Definition join (sep : string) (parts : list string) : string :=
  String.concat sep parts.

Definition startswith (s p : string) : bool := String.prefix p s.

Fixpoint endswith (s p : string) : bool :=
  String.eqb s p ||
  match s with
  | String _ s' => endswith s' p
  | EmptyString => false
  end.

(** [c in s] for a one-character [c] *)
Fixpoint contains (s : string) (c : ascii) : bool :=
  match s with
  | String a s' => Ascii.eqb a c || contains s' c
  | EmptyString => false
  end.

(** [s[1:-1]] *)
Definition slice_1_m1 (s : string) : string :=
  String.substring 1 (String.length s - 2) s.

(** [s[:n]] *)
Definition slice_to (n : nat) (s : string) : string := String.substring 0 n s.

(** [str(n)] of an [int] *)
Definition of_int (n : Z) : string := NilZero.string_of_int (Z.to_int n).

(** *** [int(s)]

    CPython turns the spaces above 127 into [' '], then skips the C spaces
    on both sides, reads an optional sign and a run of digits in which
    single underscores may separate digits. *)

Definition int_space (a : ascii) : bool :=
  between 9 13 a || between 32 32 a || between 133 133 a || between 160 160 a.

Fixpoint int_lstrip (s : string) : string :=
  match s with
  | String a s' => if int_space a then int_lstrip s' else s
  | EmptyString => EmptyString
  end.

Fixpoint int_rstrip (s : string) : string :=
  match s with
  | String a s' =>
      match int_rstrip s' with
      | EmptyString => if int_space a then EmptyString else String a EmptyString
      | r => String a r
      end
  | EmptyString => EmptyString
  end.

Definition digit (a : ascii) : option (Decimal.uint -> Decimal.uint) :=
  match a with
  | "0"%char => Some Decimal.D0
  | "1"%char => Some Decimal.D1
  | "2"%char => Some Decimal.D2
  | "3"%char => Some Decimal.D3
  | "4"%char => Some Decimal.D4
  | "5"%char => Some Decimal.D5
  | "6"%char => Some Decimal.D6
  | "7"%char => Some Decimal.D7
  | "8"%char => Some Decimal.D8
  | "9"%char => Some Decimal.D9
  | _ => None
  end.

Inductive digits_state : Set := AtStart | AfterDigit | AfterUnderscore.

Fixpoint digits (st : digits_state) (s : string) : option Decimal.uint :=
  match s with
  | String a s' =>
      match digit a with
      | Some d => option_map d (digits AfterDigit s')
      | None =>
          if Ascii.eqb a "_"
          then match st with
               | AfterDigit => digits AfterUnderscore s'
               | _ => None
               end
          else None
      end
  | EmptyString =>
      match st with
      | AfterDigit => Some Decimal.Nil
      | _ => None
      end
  end.

(** The optional sign: is it ['-'], and what follows it. *)
Definition sign_and_body (t : string) : bool * string :=
  match t with
  | String "-" r => (true, r)
  | String "+" r => (false, r)
  | _ => (false, t)
  end.

Definition int (s : string) : result Z :=
  let '(negative, body) := sign_and_body (int_rstrip (int_lstrip s)) in
  match digits AtStart body with
  | Some d => Ok (if negative then (- Z.of_uint d)%Z else Z.of_uint d)
  | None => Raise ValueError
  end.

End Str.

(* ------------------------------------------------------------------ *)
(** ** JSON values, as Python objects *)

Inductive json : Type :=
| JNone
| JBool (b : bool)
| JInt (n : Z)
| JFloat (f : float)
| JStr (s : string)
| JList (l : list json)
| JDict (d : list (string * json)).

(** [d.get(k)] on the entries of a dict, before the default is applied. *)
Fixpoint lookup (d : list (string * json)) (k : string) : option json :=
  match d with
  | (k', v) :: rest => if String.eqb k' k then Some v else lookup rest k
  | [] => None
  end.

(** [d.get(k, default)] *)
Definition dict_get (d : list (string * json)) (k : string) (default : json) : json :=
  match lookup d k with
  | Some v => v
  | None => default
  end.

(** Truth value of an object, as [if x:] and [not x] take it. *)
Definition truthy (v : json) : bool :=
  match v with
  | JNone => false
  | JBool b => b
  | JInt n => negb (n =? 0)%Z
  | JFloat f => negb (PrimFloat.eqb f PrimFloat.zero)
  | JStr s => negb (String.eqb s "")
  | JList l => match l with [] => false | _ => true end
  | JDict d => match d with [] => false | _ => true end
  end.

(** [x or y] *)
Definition py_or (x y : json) : json := if truthy x then x else y.

(** No dict of the value holds a key twice. *)
Fixpoint wf (v : json) : Prop :=
  match v with
  | JList l => (fix all (l : list json) : Prop :=
                  match l with
                  | [] => True
                  | x :: r => wf x /\ all r
                  end) l
  | JDict d => NoDup (map fst d) /\
               (fix all (d : list (string * json)) : Prop :=
                  match d with
                  | [] => True
                  | (_, x) :: r => wf x /\ all r
                  end) d
  | _ => True
  end.

(** A key that a dotted path can name: it holds no ['.'] and is not of
    the bracketed form the path syntax reads as an index. *)
Definition key_ok (k : string) : bool :=
  negb (Str.contains k ".") && negb (Str.startswith k "[" && Str.endswith k "]").

(** Every key of every dict of the value is [key_ok]. *)
Fixpoint keys_ok (v : json) : Prop :=
  match v with
  | JList l => (fix all (l : list json) : Prop :=
                  match l with
                  | [] => True
                  | x :: r => keys_ok x /\ all r
                  end) l
  | JDict d => (fix all (d : list (string * json)) : Prop :=
                  match d with
                  | [] => True
                  | (k, x) :: r => (key_ok k = true /\ keys_ok x) /\ all r
                  end) d
  | _ => True
  end.

(* ------------------------------------------------------------------ *)
(** ** [CODE_TOKEN_RE] *)

Module Re.

(** The pieces the pattern is made of: a literal character (compared
    under [re.IGNORECASE]) and [\s*]. *)
Inductive atom : Set :=
| Lit (c : ascii)
| SpaceStar.

Fixpoint lit (s : string) : list atom :=
  match s with
  | String c s' => Lit c :: lit s'
  | EmptyString => []
  end.

(** Does the sequence [p] match a prefix of [s]? *)
Fixpoint match_here (p : list atom) (s : string) : bool :=
  match p with
  | [] => true
  | Lit c :: p' =>
      match s with
      | String a s' => Ascii.eqb (Str.lower a) c && match_here p' s'
      | EmptyString => false
      end
  | SpaceStar :: p' =>
      (fix star (s : string) : bool :=
         match_here p' s ||
         match s with
         | String a s' => Str.isspace a && star s'
         | EmptyString => false
         end) s
  end.

(** [\b] between the character [prev] and the rest [s]. *)
Definition word_boundary (prev : option ascii) (s : string) : bool :=
  xorb (match prev with Some a => Str.isword a | None => false end)
       (match s with String a _ => Str.isword a | EmptyString => false end).

(** [\b(alt1|alt2|...)]: a word boundary, then one of the alternatives. *)
Definition match_at (alts : list (list atom)) (prev : option ascii) (s : string) : bool :=
  word_boundary prev s && existsb (fun p => match_here p s) alts.

Fixpoint search_from (alts : list (list atom)) (prev : option ascii) (s : string) : bool :=
  match_at alts prev s ||
  match s with
  | String a s' => search_from alts (Some a) s'
  | EmptyString => false
  end.

(** [pattern.search(s)] is not [None] *)
Definition search (alts : list (list atom)) (s : string) : bool :=
  search_from alts None s.

End Re.

Definition CODE_TOKEN_RE : list (list Re.atom) :=
  [ Re.lit "def"; Re.lit "class"; Re.lit "function"; Re.lit "const";
    Re.lit "let"; Re.lit "var"; Re.lit "import"; Re.lit "from";
    Re.lit "public"; Re.lit "private";
    (Re.lit "if" ++ [Re.SpaceStar] ++ Re.lit "(")%list;
    (Re.lit "for" ++ [Re.SpaceStar] ++ Re.lit "(")%list;
    (Re.lit "while" ++ [Re.SpaceStar] ++ Re.lit "(")%list;
    Re.lit "=>"; Re.lit "console.log"; Re.lit "print("; Re.lit "println(" ].

(* ------------------------------------------------------------------ *)
(** ** [extract_code_from_json] *)

(** A candidate is the tuple [(score, s, path_tokens)]. *)
Definition candidate : Type := Z * string * list string.

Definition cand_score (c : candidate) : Z := fst (fst c).
Definition cand_text (c : candidate) : string := snd (fst c).
Definition cand_path (c : candidate) : list string := snd c.

(** [f"[{i}]"] *)
Definition index_token (i : nat) : string :=
  "[" ++ Str.of_int (Z.of_nat i) ++ "]".

(** [s.count("\n") * 10 + (20 if CODE_TOKEN_RE.search(s) else 0)] *)
Definition score (s : string) : Z :=
  (Str.count s Str.newline * 10 + (if Re.search CODE_TOKEN_RE s then 20 else 0))%Z.

(** The inner function [walk]; the list [candidates] it appends to is
    threaded through the calls. *)
Fixpoint walk (o : json) (path_tokens : list string) (candidates : list candidate)
  : list candidate :=
  match o with
  | JDict d =>
      (fix items (kvs : list (string * json)) (candidates : list candidate) :=
         match kvs with
         | (k, v) :: rest => items rest (walk v (path_tokens ++ [k])%list candidates)
         | [] => candidates
         end) d candidates
  | JList l =>
      (fix enumerate (vs : list json) (i : nat) (candidates : list candidate) :=
         match vs with
         | v :: rest =>
             enumerate rest (S i) (walk v (path_tokens ++ [index_token i])%list candidates)
         | [] => candidates
         end) l 0%nat candidates
  | JStr o' =>
      let s := Str.strip o' in
      if (String.length s <? 10)%nat then candidates
      else (candidates ++ [(score s, s, path_tokens)])%list
  | _ => candidates
  end.

(** [candidates.sort(key=lambda x: x[0], reverse=True)].  [list.sort] is
    stable, also with [reverse=True], so the result is the one stable
    arrangement by decreasing score; it is computed here by insertion. *)
Fixpoint insert_desc (c : candidate) (sorted : list candidate) : list candidate :=
  match sorted with
  | h :: t =>
      if (cand_score c <? cand_score h)%Z then h :: insert_desc c t
      else c :: sorted
  | [] => [c]
  end.

Definition sort_desc (l : list candidate) : list candidate :=
  fold_right insert_desc [] l.

(** What a stable sort by decreasing score is: the scores never increase
    along the list, and the candidates of any one score keep their order
    (see [sort_desc_decreasing], [sort_desc_perm], [sort_desc_stable]). *)
Definition decreasing (l : list candidate) : Prop :=
  StronglySorted (fun a b => (cand_score b <= cand_score a)%Z) l.

Definition has_score (k : Z) (c : candidate) : bool := (cand_score c =? k)%Z.

Definition extract_code_from_json (obj : json) : option string * option string :=
  let candidates := walk obj [] [] in
  match candidates with
  | [] => (None, None)
  | _ :: _ =>
      match sort_desc candidates with
      | (_, code, path_tokens) :: _ => (Some code, Some (Str.join "." path_tokens))
      | [] => (None, None)
      end
  end.

(* ------------------------------------------------------------------ *)
(** ** The leaves of a document, in traversal order

    The specification's reading of the traversal: a path is a sequence of
    tokens, a mapping key or a sequence index, and the string leaves are
    listed depth first, mapping entries in insertion order and sequence
    elements in index order. *)

Inductive token : Set :=
| Key (k : string)
| Index (i : nat).

Definition render_token (t : token) : string :=
  match t with
  | Key k => k
  | Index i => index_token i
  end.

Definition under (t : token) (leaf : list token * string) : list token * string :=
  (t :: fst leaf, snd leaf).

Fixpoint leaves (o : json) : list (list token * string) :=
  match o with
  | JStr s => [([], s)]
  | JList l =>
      (fix elements (vs : list json) (i : nat) :=
         match vs with
         | v :: rest => (map (under (Index i)) (leaves v) ++ elements rest (S i))%list
         | [] => []
         end) l 0%nat
  | JDict d =>
      (fix entries (kvs : list (string * json)) :=
         match kvs with
         | (k, v) :: rest => (map (under (Key k)) (leaves v) ++ entries rest)%list
         | [] => []
         end) d
  | _ => []
  end.

(** The two inner loops of [leaves], by name. *)
Fixpoint elements_from (vs : list json) (i : nat) : list (list token * string) :=
  match vs with
  | v :: rest => (map (under (Index i)) (leaves v) ++ elements_from rest (S i))%list
  | [] => []
  end.

Fixpoint entries_of (kvs : list (string * json)) : list (list token * string) :=
  match kvs with
  | (k, v) :: rest => (map (under (Key k)) (leaves v) ++ entries_of rest)%list
  | [] => []
  end.

(** A leaf qualifies when its trimmed text has at least 10 characters. *)
Definition qualifies (leaf : list token * string) : bool :=
  (10 <=? String.length (Str.strip (snd leaf)))%nat.

(** The candidate the extractor builds for a leaf found below [prefix]. *)
Definition candidate_of (prefix : list string) (leaf : list token * string) : candidate :=
  (score (Str.strip (snd leaf)), Str.strip (snd leaf),
   (prefix ++ map render_token (fst leaf))%list).

(** The path rendering with index tokens glued to the preceding token
    (no separator before the bracket), as one sentence of the
    specification describes it. *)
Fixpoint render_adjacent (path : list token) : string :=
  match path with
  | [] => ""
  | t :: rest =>
      render_token t ++
      match rest with
      | [] => ""
      | Index _ :: _ => render_adjacent rest
      | Key _ :: _ => "." ++ render_adjacent rest
      end
  end.

(* ------------------------------------------------------------------ *)
(** ** Walking an explicit [code_path] *)

(** [cur[i]] for an [int] [i] *)
Definition getitem (cur : json) (i : Z) : result json :=
  match cur with
  | JList l =>
      let n := Z.of_nat (List.length l) in
      let j := if (i <? 0)%Z then (i + n)%Z else i in
      if ((0 <=? j) && (j <? n))%Z
      then match nth_error l (Z.to_nat j) with
           | Some v => Ok v
           | None => Raise IndexError
           end
      else Raise IndexError
  | JStr s =>
      let n := Z.of_nat (String.length s) in
      let j := if (i <? 0)%Z then (i + n)%Z else i in
      if ((0 <=? j) && (j <? n))%Z
      then match String.get (Z.to_nat j) s with
           | Some a => Ok (JStr (String a EmptyString))
           | None => Raise IndexError
           end
      else Raise IndexError
  | JDict _ => Raise KeyError
  | _ => Raise TypeError
  end.

(** [cur.get(p)] *)
Definition method_get (cur : json) (p : string) : result json :=
  match cur with
  | JDict d => Ok (dict_get d p JNone)
  | _ => Raise AttributeError
  end.

(** The body of the loop over [parts]. *)
Definition path_step (cur : json) (p : string) : result json :=
  if Str.startswith p "[" && Str.endswith p "]"
  then i <- Str.int (Str.slice_1_m1 p) ;; getitem cur i
  else method_get cur p.

Fixpoint follow (cur : json) (parts : list string) : result json :=
  match parts with
  | p :: rest => cur' <- path_step cur p ;; follow cur' rest
  | [] => Ok cur
  end.

(** [not code_value], for a value that is [None] or a [str]. *)
Definition unusable (code_value : option string) : bool :=
  match code_value with
  | Some s => String.eqb s ""
  | None => true
  end.

Definition COMMON_FIELDS : list string := ["code"; "source"; "snippet"; "text"].

Definition TRUNCATED : string := String Str.newline "... (truncated)".

(** [code_value if len(code_value) <= 2000 else code_value[:2000] + "\n... (truncated)"] *)
Definition make_preview (code_value : string) : string :=
  if (String.length code_value <=? 2000)%nat then code_value
  else Str.slice_to 2000 code_value ++ TRUNCATED.

(** The body of a success answer. *)
Record success : Type := {
  extracted_path : option string;
  extracted_preview : string;
  language : json;
  explanation : string
}.

Inductive reply : Type :=
| Json200 (r : success)
| Error400 (error : string)
| Unhandled.

(** The variables [code_value] and [used_path] of the handler. *)
Definition resolution : Type := option string * option string.

Section WithBuiltins.

(** Outside the repository, and parameters of all that follows: [repr] of
    a [float] and of a [str], and the generation service with the text the
    handler reads off its answer ([None]: the call raises). *)
Variable repr_float : float -> string.
Variable repr_str : string -> string.
Variable response : Type.
Variable generate_content : string -> option response.
Variable explanation_of : response -> string.

Set Default Proof Using "Type".

Fixpoint repr (v : json) : string :=
  match v with
  | JNone => "None"
  | JBool b => if b then "True" else "False"
  | JInt n => Str.of_int n
  | JFloat f => repr_float f
  | JStr s => repr_str s
  | JList l => "[" ++ Str.join ", " (map repr l) ++ "]"
  | JDict d =>
      "{" ++ Str.join ", "
               (map (fun kv => let '(k, x) := kv in repr_str k ++ ": " ++ repr x) d)
          ++ "}"
  end.

(** [str(v)] *)
Definition str (v : json) : string :=
  match v with
  | JStr s => s
  | _ => repr v
  end.

(** [isinstance(x, (str, int, float))]; [bool] is a subclass of [int]. *)
Definition is_str_int_float (x : json) : bool :=
  match x with
  | JStr _ | JInt _ | JFloat _ | JBool _ => true
  | _ => false
  end.

Definition normalize_code (value : json) : option string :=
  match value with
  | JNone => None
  | JStr s => Some s
  | JList l =>
      Some (Str.join (String Str.newline "") (map str (filter is_str_int_float l)))
  | _ => Some (str value)
  end.

(** Lines 107-121: the explicit path. *)
Definition try_explicit_path (payload code_path : json) : result resolution :=
  if truthy code_path then
    match code_path with
    | JStr cp =>
        match follow payload (Str.split cp ".") with
        | Ok cur => Ok (normalize_code cur, Some cp)
        | Raise _ => Ok (None, None)
        end
    | _ => Raise AttributeError
    end
  else Ok (None, None).

(** Lines 125-130: the loop over the common fields. *)
Fixpoint try_common_fields (payload : json) (commons : list string) (st : resolution)
  : result resolution :=
  match commons with
  | common :: rest =>
      cur <- method_get payload common ;;
      if truthy cur then Ok (normalize_code cur, Some common)
      else try_common_fields payload rest st
  | [] => Ok st
  end.

(** Lines 134-136: the extractor. *)
Definition auto_extract (payload : json) (st : resolution) : resolution :=
  let '(code_value, auto_path) := extract_code_from_json payload in
  if unusable code_value then (code_value, snd st) else (code_value, auto_path).

(** Lines 106-136. *)
Definition resolve (payload code_path : json) : result resolution :=
  st1 <- try_explicit_path payload code_path ;;
  st2 <- (if unusable (fst st1) then try_common_fields payload COMMON_FIELDS st1
          else Ok st1) ;;
  Ok (if unusable (fst st2) then auto_extract payload st2 else st2).

Definition make_prompt (language : json) (code_value : string) : string :=
  let nl := String Str.newline "" in
  nl ++ "You are an expert programming tutor." ++ nl
  ++ "Explain the following " ++ str language ++ " code line by line in simple terms." ++ nl
  ++ "Return a readable text format like:" ++ nl
  ++ "Line 1: <code>" ++ nl
  ++ "Explanation: <explanation>" ++ nl
  ++ nl
  ++ "Here is the code:" ++ nl
  ++ code_value ++ nl.

(** Lines 141-180, once [code_value] is usable. *)
Definition answer (b : list (string * json)) (code_value : string) (used_path : option string)
  : list string * reply :=
  let language := py_or (dict_get b "language" JNone) (JStr "unspecified") in
  let prompt := make_prompt language code_value in
  match generate_content prompt with
  | Some resp =>
      ([prompt],
       Json200 {| extracted_path := used_path;
                  extracted_preview := make_preview code_value;
                  language := language;
                  explanation := explanation_of resp |})
  | None => ([prompt], Unhandled)
  end.

(** The view function, on the value [request.get_json(silent=True)]
    returns ([JNone] when the body does not parse).  The result is the list
    of prompts sent to the generation service and the reply. *)
Definition explain_json_route (body : json) : list string * reply :=
  if negb (truthy body) then ([], Error400 "Invalid request")
  else
    match body with
    | JDict b =>
        let payload := dict_get b "payload" body in
        let code_path := py_or (dict_get b "code_path" JNone) JNone in
        match resolve payload code_path with
        | Ok (code_value, used_path) =>
            match code_value with
            | Some code =>
                if String.eqb code "" then ([], Error400 "No code found")
                else answer b code used_path
            | None => ([], Error400 "No code found")
            end
        | Raise _ => ([], Unhandled)
        end
    | _ => ([], Unhandled)
    end.


(* ------------------------------------------------------------------ *)
(** ** The specification's reading of two sentences, and sample inputs *)

(** The elements the specification says a sequence keeps when it is
    normalized: strings and numbers only. *)
Definition is_str_or_number (x : json) : bool :=
  match x with
  | JStr _ | JInt _ | JFloat _ => true
  | _ => false
  end.

Definition NL : string := String Str.newline "".

(** [{"result": {"answer": "def f(x):\n    return x+1"}}] *)
Definition doc_result_answer : json :=
  JDict [("result", JDict [("answer", JStr ("def f(x):" ++ NL ++ "    return x+1"))])].

(** [{"code": "", "data": ["x = 1", "y = 2", "print(x+y)"]}] *)
Definition doc_empty_code : json :=
  JDict [("code", JStr "");
         ("data", JList [JStr "x = 1"; JStr "y = 2"; JStr "print(x+y)"])].

(** [{"data": ["print('hello')"]}] *)
Definition doc_data_list : json :=
  JDict [("data", JList [JStr "print('hello')"])].

(** [{"note": "just some words", "snippet": "first line\nsecond line"}] *)
Definition doc_two_leaves : json :=
  JDict [("note", JStr "just some words");
         ("snippet", JStr ("first line" ++ NL ++ "second line"))].


(** [{"code": "print('from code')", "items": ["print('from path')"]}] *)
Definition doc_code_and_items : json :=
  JDict [("code", JStr "print('from code')");
         ("items", JList [JStr "print('from path')"])].

(** A string of [n] characters. *)
Fixpoint filler (n : nat) : string :=
  match n with
  | S n' => String "x" (filler n')
  | O => EmptyString
  end.

(** Stand-ins for the builtins in the closed examples: no example holds a
    float or reaches [repr] of a string, and the service answers. *)
Definition sample_repr_float (f : float) : string := "0.0".
Definition sample_repr_str (s : string) : string := "'" ++ s ++ "'".
Definition sample_generate (prompt : string) : option unit := Some tt.
Definition sample_explanation (resp : unit) : string := "Line 1: ...".

(* ------------------------------------------------------------------ *)
(** ** The page of [INDEX_HTML], and further sample inputs *)

(** What [String.prototype.trim] removes, among the code points below 256. *)
Definition js_space (a : ascii) : bool :=
  Str.between 9 13 a || Str.between 32 32 a || Str.between 160 160 a.

Fixpoint js_trim_start (s : string) : string :=
  match s with
  | String a s' => if js_space a then js_trim_start s' else s
  | EmptyString => EmptyString
  end.

Fixpoint js_trim_end (s : string) : string :=
  match s with
  | String a s' =>
      match js_trim_end s' with
      | EmptyString => if js_space a then EmptyString else String a EmptyString
      | r => String a r
      end
  | EmptyString => EmptyString
  end.

(** [value.trim()] *)
Definition js_trim (s : string) : string := js_trim_end (js_trim_start s).

(** The body the click handler posts, for the document [parsed] that
    [JSON.parse] returned and the text of the [codePath] input:
    [{payload: parsed, code_path: value.trim() || null}]. *)
Definition page_body (parsed : json) (code_path_input : string) : json :=
  let code_path := js_trim code_path_input in
  JDict [("payload", parsed);
         ("code_path", if String.eqb code_path "" then JNone else JStr code_path)].

(** A string with its letters [A]-[Z] lowered. *)
Fixpoint lower_string (s : string) : string :=
  match s with
  | String a s' => String (Str.lower a) (lower_string s')
  | EmptyString => EmptyString
  end.

(** The score and the text of a candidate: all that the choice looks at. *)
Definition cand_key (c : candidate) : Z * string := (cand_score c, cand_text c).

(** The [path_tokens] of a leaf. *)
Definition rendered_path (leaf : list token * string) : list string :=
  map render_token (fst leaf).

(** The success answer for [doc_code_and_items] and the path [items.[0]],
    with the stand-ins below. *)
Definition sample_success : success :=
  {| extracted_path := Some "items.[0]";
     extracted_preview := "print('from path')";
     language := JStr "unspecified";
     explanation := "Line 1: ..." |}.

(** [{"payload": {"code": "print('from code')", "items": ["print('from path')"]},
     "code_path": "items.[0]"}] *)
Definition request_items_0 : json :=
  JDict [("payload", doc_code_and_items); ("code_path", JStr "items.[0]")].

(** [{"text": "   print('hello')  \n"}] *)
Definition doc_padded : json :=
  JDict [("text", JStr ("   print('hello')  " ++ NL))].

(** [["print('hello')"]] *)
Definition doc_top_list : json := JList [JStr "print('hello')"].

(** [{"payload": ["print('hello')"], "code_path": "[5]"}] *)
Definition request_top_list_5 : json :=
  JDict [("payload", doc_top_list); ("code_path", JStr "[5]")].

(** [{"code": [null], "source": "x = 1"}] *)
Definition doc_null_code : json :=
  JDict [("code", JList [JNone]); ("source", JStr "x = 1")].

(** [{"a": "hello"}] *)
Definition doc_short : json := JDict [("a", JStr "hello")].

(* ================================================================== *)
(** * Properties *)

(** ** Induction over documents *)

Section JsonInduction.

Variable P : json -> Prop.
Hypothesis HNone : P JNone.
Hypothesis HBool : forall b, P (JBool b).
Hypothesis HInt : forall n, P (JInt n).
Hypothesis HFloat : forall f, P (JFloat f).
Hypothesis HStr : forall s, P (JStr s).
Hypothesis HList : forall l, Forall P l -> P (JList l).
Hypothesis HDict : forall d, Forall (fun kv => P (snd kv)) d -> P (JDict d).

Fixpoint json_induction (o : json) : P o :=
  match o with
  | JNone => HNone
  | JBool b => HBool b
  | JInt n => HInt n
  | JFloat f => HFloat f
  | JStr s => HStr s
  | JList l =>
      HList l
        ((fix all (l : list json) : Forall P l :=
            match l with
            | [] => Forall_nil P
            | x :: r => Forall_cons x (json_induction x) (all r)
            end) l)
  | JDict d =>
      HDict d
        ((fix all (d : list (string * json)) : Forall (fun kv => P (snd kv)) d :=
            match d with
            | [] => Forall_nil _
            | (k, x) :: r =>
                Forall_cons (P := fun kv => P (snd kv)) (k, x) (json_induction x) (all r)
            end) d)
  end.

End JsonInduction.

(** ** The traversal lists the qualifying leaves *)

Lemma qualifies_under t leaf : qualifies (under t leaf) = qualifies leaf.
Proof. reflexivity. Qed.

Lemma filter_qualifies_under t ls :
  filter qualifies (map (under t) ls) = map (under t) (filter qualifies ls).
Proof.
  induction ls as [|leaf ls IH]; simpl; [reflexivity|].
  rewrite qualifies_under. destruct (qualifies leaf); simpl; now rewrite IH.
Qed.

Lemma candidate_of_under prefix t leaf :
  candidate_of prefix (under t leaf) = candidate_of (prefix ++ [render_token t]) leaf.
Proof.
  unfold candidate_of, under; simpl. now rewrite <- List.app_assoc.
Qed.

Lemma map_candidate_of_under prefix t ls :
  map (candidate_of prefix) (map (under t) ls)
  = map (candidate_of (prefix ++ [render_token t])) ls.
Proof.
  rewrite map_map. apply map_ext. intros leaf. apply candidate_of_under.
Qed.

Lemma walk_leaves o :
  forall path_tokens candidates,
    walk o path_tokens candidates
    = (candidates ++ map (candidate_of path_tokens) (filter qualifies (leaves o)))%list.
Proof.
  induction o as [| b | n | f | s | l IH | d IH] using json_induction;
    intros pre acc; try (simpl; now rewrite List.app_nil_r).
  - cbn [walk leaves filter]. unfold qualifies; cbn [snd].
    rewrite Nat.ltb_antisym.
    destruct (10 <=? String.length (Str.strip s))%nat; cbn [negb map].
    + unfold candidate_of; cbn [fst snd map]. now rewrite List.app_nil_r.
    + now rewrite List.app_nil_r.
  - simpl. generalize 0%nat as i. revert acc.
    induction IH as [|v vs Hv _ IHvs]; intros acc i; simpl.
    + now rewrite List.app_nil_r.
    + rewrite IHvs, Hv, filter_app, map_app, filter_qualifies_under.
      rewrite map_candidate_of_under. simpl. now rewrite List.app_assoc.
  - simpl. revert acc.
    induction IH as [|[k v] kvs Hv _ IHkvs]; intros acc; simpl.
    + now rewrite List.app_nil_r.
    + simpl in Hv.
      rewrite IHkvs, Hv, filter_app, map_app, filter_qualifies_under.
      rewrite map_candidate_of_under. simpl. now rewrite List.app_assoc.
Qed.

Lemma walk_root o :
  walk o [] [] = map (candidate_of []) (filter qualifies (leaves o)).
Proof. now rewrite walk_leaves. Qed.

(** ** The sort: decreasing, a rearrangement, and stable *)

Lemma insert_desc_perm c l : Permutation (c :: l) (insert_desc c l).
Proof.
  induction l as [|h t IH]; simpl; [apply Permutation_refl|].
  destruct (cand_score c <? cand_score h)%Z.
  - eapply perm_trans; [apply perm_swap|].
    now apply perm_skip.
  - apply Permutation_refl.
Qed.

Lemma sort_desc_perm l : Permutation l (sort_desc l).
Proof.
  induction l as [|c l IH]; simpl; [constructor|].
  eapply perm_trans; [|apply insert_desc_perm].
  now apply perm_skip.
Qed.

Lemma insert_desc_decreasing c l : decreasing l -> decreasing (insert_desc c l).
Proof.
  unfold decreasing. induction 1 as [|h t Ht IH Hh]; simpl.
  - repeat constructor.
  - destruct (Z.ltb_spec (cand_score c) (cand_score h)).
    + constructor; [exact IH|].
      rewrite Forall_forall in *. intros x Hx.
      apply (Permutation_in _ (Permutation_sym (insert_desc_perm c t))) in Hx.
      destruct Hx as [<-|Hx]; [lia|auto].
    + constructor; [now constructor|].
      constructor; [lia|].
      rewrite Forall_forall in *. intros x Hx. specialize (Hh x Hx). lia.
Qed.

Lemma sort_desc_decreasing l : decreasing (sort_desc l).
Proof.
  induction l as [|c l IH]; simpl; [constructor|].
  now apply insert_desc_decreasing.
Qed.

Lemma insert_desc_stable k c l :
  filter (has_score k) (insert_desc c l) = filter (has_score k) (c :: l).
Proof.
  induction l as [|h t IH]; [reflexivity|].
  simpl insert_desc. destruct (Z.ltb_spec (cand_score c) (cand_score h)); [|reflexivity].
  simpl in *. rewrite IH. unfold has_score.
  destruct (Z.eqb_spec (cand_score c) k), (Z.eqb_spec (cand_score h) k); try reflexivity.
  lia.
Qed.

Lemma sort_desc_stable k l :
  filter (has_score k) (sort_desc l) = filter (has_score k) l.
Proof.
  induction l as [|c l IH]; [reflexivity|].
  simpl sort_desc. rewrite insert_desc_stable. simpl. now rewrite IH.
Qed.

(** The first element after the sort is the first of the greatest score. *)
Lemma sort_desc_head l c rest :
  sort_desc l = c :: rest ->
  exists before after,
    l = (before ++ c :: after)%list
    /\ Forall (fun x => (cand_score x < cand_score c)%Z) before
    /\ Forall (fun x => (cand_score x <= cand_score c)%Z) after.
Proof.
  revert c rest. induction l as [|x l IH]; intros c rest; simpl; [discriminate|].
  destruct (sort_desc l) as [|h t] eqn:Hs; simpl.
  - intros [= <- <-].
    assert (l = []) as ->.
    { apply Permutation_nil. apply Permutation_sym.
      rewrite <- Hs. apply sort_desc_perm. }
    exists [], []. repeat split; constructor.
  - destruct (IH h t eq_refl) as (before & after & -> & Hb & Ha).
    destruct (Z.ltb_spec (cand_score x) (cand_score h)); intros [= <- <-].
    + exists (x :: before), after. repeat split; [constructor; assumption|assumption].
    + exists [], (before ++ h :: after)%list. repeat split; [constructor|].
      rewrite Forall_app. split; [|constructor].
      * eapply Forall_impl; [|exact Hb]. simpl; intros; lia.
      * lia.
      * eapply Forall_impl; [|exact Ha]. simpl; intros; lia.
Qed.

Lemma sort_desc_nil l : sort_desc l = [] -> l = [].
Proof.
  intros H. apply Permutation_nil, Permutation_sym.
  rewrite <- H. apply sort_desc_perm.
Qed.

(** ** What [extract_code_from_json] returns *)

Lemma extract_none o :
  extract_code_from_json o = (None, None) <-> walk o [] [] = [].
Proof.
  unfold extract_code_from_json.
  destruct (walk o [] []) as [|c cs] eqn:Hw; [tauto|].
  destruct (sort_desc (c :: cs)) as [|[[sc code] toks] rest] eqn:Hs.
  - apply sort_desc_nil in Hs. discriminate.
  - split; discriminate.
Qed.

Lemma extract_some o code path :
  extract_code_from_json o = (Some code, Some path) ->
  exists before c after,
    walk o [] [] = (before ++ c :: after)%list
    /\ cand_text c = code
    /\ Str.join "." (cand_path c) = path
    /\ Forall (fun x => (cand_score x < cand_score c)%Z) before
    /\ Forall (fun x => (cand_score x <= cand_score c)%Z) after.
Proof.
  unfold extract_code_from_json.
  destruct (walk o [] []) as [|c0 cs] eqn:Hw; [discriminate|].
  destruct (sort_desc (c0 :: cs)) as [|[[sc code'] toks] rest] eqn:Hs; [discriminate|].
  intros [= <- <-].
  destruct (sort_desc_head _ _ _ Hs) as (before & after & Heq & Hb & Ha).
  exists before, (sc, code', toks), after. repeat split; assumption.
Qed.

Lemma extract_of_split o before c after :
  walk o [] [] = (before ++ c :: after)%list ->
  Forall (fun x => (cand_score x < cand_score c)%Z) before ->
  Forall (fun x => (cand_score x <= cand_score c)%Z) after ->
  extract_code_from_json o = (Some (cand_text c), Some (Str.join "." (cand_path c))).
Proof.
  intros Hw Hb Ha.
  destruct (extract_code_from_json o) as [code path] eqn:He.
  destruct code as [code|], path as [path|].
  - destruct (extract_some _ _ _ He) as (b' & c' & a' & Hw' & <- & <- & Hb' & Ha').
    rewrite Hw in Hw'.
    enough (c = c') by (subst; reflexivity).
    clear He Hw. revert b' Hw' Hb'.
    induction before as [|x before IH]; intros [|y b'] Hw' Hb'; simpl in Hw'.
    + now injection Hw'.
    + injection Hw' as Hx Ht. subst.
      apply Forall_inv in Hb'. rewrite Forall_forall in Ha.
      specialize (Ha c' (in_elt _ _ _)). lia.
    + injection Hw' as Hx Ht. subst.
      apply Forall_inv in Hb. rewrite Forall_forall in Ha'.
      specialize (Ha' c (in_elt _ _ _)). lia.
    + injection Hw' as Hx Ht. subst.
      apply Forall_inv_tail in Hb. apply Forall_inv_tail in Hb'. eauto.
  - exfalso. revert He. unfold extract_code_from_json.
    destruct (walk o [] []); [discriminate|].
    destruct (sort_desc _) as [|[[? ?] ?] ?]; discriminate.
  - exfalso. revert He. unfold extract_code_from_json.
    destruct (walk o [] []); [discriminate|].
    destruct (sort_desc _) as [|[[? ?] ?] ?]; discriminate.
  - apply extract_none in He. rewrite Hw in He. now destruct before.
Qed.

(** ** Strings *)

Lemma string_app_assoc (a b c : string) : (a ++ b) ++ c = a ++ (b ++ c).
Proof. induction a; simpl; congruence. Qed.

Lemma string_length_app (a b : string) :
  String.length (a ++ b) = (String.length a + String.length b)%nat.
Proof. induction a; simpl; congruence. Qed.

Lemma substring_0_app (a b : string) : String.substring 0 (String.length a) (a ++ b) = a.
Proof. induction a; simpl; [now destruct b | congruence]. Qed.

Lemma substring_0_length (n : nat) (s : string) :
  (n <= String.length s)%nat -> String.length (String.substring 0 n s) = n.
Proof.
  revert s. induction n as [|n IH]; intros [|a s] H; simpl in *; try reflexivity; try lia.
  rewrite IH; [reflexivity | lia].
Qed.

Lemma endswith_app (s p : string) : Str.endswith (s ++ p) p = true.
Proof.
  induction s as [|a s IH]; simpl.
  - destruct p; simpl; [reflexivity|]. now rewrite Ascii.eqb_refl, String.eqb_refl.
  - rewrite IH. apply orb_true_r.
Qed.

Lemma slice_brackets (d : string) : Str.slice_1_m1 ("[" ++ d ++ "]") = d.
Proof.
  unfold Str.slice_1_m1. simpl. rewrite string_length_app. simpl.
  replace (String.length d + 1 - 1)%nat with (String.length d) by lia.
  apply substring_0_app.
Qed.

Lemma contains_app (a b : string) c :
  Str.contains (a ++ b) c = Str.contains a c || Str.contains b c.
Proof. induction a as [|x a IH]; simpl; [reflexivity|]. now rewrite IH, orb_assoc. Qed.

Lemma split_nonempty s c : Str.split s c <> [].
Proof.
  induction s as [|a s IH]; simpl; [discriminate|].
  destruct (Ascii.eqb a c); [discriminate|]. destruct (Str.split s c); discriminate.
Qed.

Lemma split_without s c : Str.contains s c = false -> Str.split s c = [s].
Proof.
  induction s as [|a s IH]; simpl; [reflexivity|].
  intros H. apply orb_false_iff in H as [-> H]. now rewrite (IH H).
Qed.

Lemma split_app s r c :
  Str.contains s c = false ->
  Str.split (s ++ String c r) c = s :: Str.split r c.
Proof.
  induction s as [|a s IH]; simpl.
  - now rewrite Ascii.eqb_refl.
  - intros H. apply orb_false_iff in H as [-> H]. now rewrite (IH H).
Qed.

Lemma join_cons2 sep t t' ts :
  Str.join sep (t :: t' :: ts) = t ++ sep ++ Str.join sep (t' :: ts).
Proof. reflexivity. Qed.

(** [split] undoes [join] when no part holds the separator. *)
Lemma split_join (parts : list string) :
  parts <> [] ->
  Forall (fun t => Str.contains t "." = false) parts ->
  Str.split (Str.join "." parts) "." = parts.
Proof.
  intros Hne H. induction H as [|t ts Ht Hts IH]; [congruence|].
  destruct ts as [|t' ts].
  - simpl. now apply split_without.
  - rewrite join_cons2.
    change ("." ++ Str.join "." (t' :: ts)) with (String "." (Str.join "." (t' :: ts))).
    rewrite (split_app _ _ _ Ht). now rewrite IH by discriminate.
Qed.

(** ** [int] reads back what [str] writes *)

Lemma digits_of_uint d st :
  (d <> Decimal.Nil \/ st = Str.AfterDigit) ->
  Str.digits st (NilEmpty.string_of_uint d) = Some d.
Proof.
  revert st. induction d; intros st H; simpl;
    try (rewrite IHd by (right; reflexivity); reflexivity).
  destruct H as [H| ->]; [congruence | reflexivity].
Qed.

Lemma int_lstrip_uint d : Str.int_lstrip (NilEmpty.string_of_uint d) = NilEmpty.string_of_uint d.
Proof. destruct d; reflexivity. Qed.

Lemma int_rstrip_uint d : Str.int_rstrip (NilEmpty.string_of_uint d) = NilEmpty.string_of_uint d.
Proof.
  induction d; simpl; try reflexivity; rewrite IHd;
    destruct (NilEmpty.string_of_uint d); reflexivity.
Qed.

Lemma contains_dot_uint d : Str.contains (NilEmpty.string_of_uint d) "." = false.
Proof. induction d; simpl; auto. Qed.

Lemma sign_and_body_uint d :
  Str.sign_and_body (NilEmpty.string_of_uint d) = (false, NilEmpty.string_of_uint d).
Proof. destruct d; reflexivity. Qed.

Lemma int_of_nonneg (d : Decimal.uint) :
  d <> Decimal.Nil ->
  Str.int (NilEmpty.string_of_uint d) = Ok (Z.of_uint d).
Proof.
  intros Hd. unfold Str.int.
  rewrite int_lstrip_uint, int_rstrip_uint, sign_and_body_uint.
  now rewrite digits_of_uint by (left; exact Hd).
Qed.

Lemma of_int_nat (i : nat) :
  exists d, d <> Decimal.Nil
    /\ Str.of_int (Z.of_nat i) = NilEmpty.string_of_uint d
    /\ Z.of_uint d = Z.of_nat i.
Proof.
  unfold Str.of_int.
  pose proof (DecimalZ.of_to (Z.of_nat i)) as Hz.
  destruct (Z.of_nat i) as [|p|p] eqn:Hi; [| |lia].
  - exists (Decimal.D0 Decimal.Nil). repeat split. discriminate.
  - exists (Pos.to_uint p). split; [apply DecimalPos.Unsigned.to_uint_nonnil|].
    split; [|exact Hz].
    simpl. unfold NilZero.string_of_uint.
    pose proof (DecimalPos.Unsigned.to_uint_nonnil p).
    destruct (Pos.to_uint p); congruence.
Qed.

Lemma int_of_int_nat (i : nat) : Str.int (Str.of_int (Z.of_nat i)) = Ok (Z.of_nat i).
Proof.
  destruct (of_int_nat i) as (d & Hd & -> & <-). now apply int_of_nonneg.
Qed.

Lemma contains_dot_index_token i : Str.contains (index_token i) "." = false.
Proof.
  unfold index_token. destruct (of_int_nat i) as (d & _ & -> & _).
  rewrite !contains_app, contains_dot_uint. reflexivity.
Qed.

Lemma startswith_cons a s : Str.startswith (String a s) (String a "") = true.
Proof.
  unfold Str.startswith. simpl.
  destruct (ascii_dec a a); [now destruct s | congruence].
Qed.

Lemma index_token_brackets i :
  Str.startswith (index_token i) "[" && Str.endswith (index_token i) "]" = true.
Proof.
  unfold index_token. rewrite <- string_app_assoc, endswith_app.
  rewrite string_app_assoc. simpl append. now rewrite startswith_cons.
Qed.

(** An index token is read as an index. *)
Lemma path_step_index l i v :
  nth_error l i = Some v ->
  path_step (JList l) (index_token i) = Ok v.
Proof.
  intros Hn. unfold path_step. rewrite index_token_brackets.
  unfold index_token. rewrite slice_brackets, int_of_int_nat. cbn [bind getitem].
  assert (i < List.length l)%nat as Hlt by (apply nth_error_Some; congruence).
  destruct (Z.ltb_spec (Z.of_nat i) 0); [lia|].
  destruct (Z.leb_spec 0 (Z.of_nat i)); [|lia].
  destruct (Z.ltb_spec (Z.of_nat i) (Z.of_nat (List.length l))); [|lia].
  cbn [andb]. now rewrite Nat2Z.id, Hn.
Qed.

(** A key that is [key_ok] is read as a key. *)
Lemma path_step_key d k :
  key_ok k = true ->
  path_step (JDict d) k = Ok (dict_get d k JNone).
Proof.
  unfold key_ok, path_step. intros H. apply andb_true_iff in H as [_ H].
  apply negb_true_iff in H. now rewrite H.
Qed.

Lemma lookup_in d k v :
  NoDup (map fst d) -> In (k, v) d -> lookup d k = Some v.
Proof.
  induction d as [|[k' v'] d IH]; simpl; [intros _ []|].
  intros Hnd [[= -> ->]|Hin].
  - now rewrite String.eqb_refl.
  - inversion Hnd as [|? ? Hnotin Hnd']; subst.
    destruct (String.eqb_spec k' k) as [->|_]; [|auto].
    exfalso. apply Hnotin. now apply (in_map fst) in Hin.
Qed.

(** ** Documents: the recursive predicates, unfolded one level *)

Lemma wf_list l : wf (JList l) <-> Forall wf l.
Proof.
  induction l as [|x l IH]; simpl.
  - split; constructor.
  - split.
    + intros [Hx Hl]. constructor; [exact Hx | apply IH; exact Hl].
    + intros H. inversion H; subst. split; [assumption | apply IH; assumption].
Qed.

Lemma wf_dict d :
  wf (JDict d) <-> NoDup (map fst d) /\ Forall (fun kv => wf (snd kv)) d.
Proof.
  simpl. apply and_iff_compat_l.
  induction d as [|[k x] d IH]; simpl.
  - split; constructor.
  - split.
    + intros [Hx Hd]. constructor; [exact Hx | apply IH; exact Hd].
    + intros H. inversion H; subst. split; [assumption | apply IH; assumption].
Qed.

Lemma keys_ok_list l : keys_ok (JList l) <-> Forall keys_ok l.
Proof.
  induction l as [|x l IH]; simpl.
  - split; constructor.
  - split.
    + intros [Hx Hl]. constructor; [exact Hx | apply IH; exact Hl].
    + intros H. inversion H; subst. split; [assumption | apply IH; assumption].
Qed.

Lemma keys_ok_dict d :
  keys_ok (JDict d)
  <-> Forall (fun kv => key_ok (fst kv) = true /\ keys_ok (snd kv)) d.
Proof.
  induction d as [|[k x] d IH]; simpl.
  - split; constructor.
  - split.
    + intros [Hx Hd]. constructor; [exact Hx | apply IH; exact Hd].
    + intros H. inversion H; subst. split; [assumption | apply IH; assumption].
Qed.

Lemma leaves_list l : leaves (JList l) = elements_from l 0.
Proof. reflexivity. Qed.

Lemma leaves_dict d : leaves (JDict d) = entries_of d.
Proof. reflexivity. Qed.

Lemma in_elements_from vs i leaf :
  In leaf (elements_from vs i) ->
  exists j v leaf',
    nth_error vs j = Some v /\ In leaf' (leaves v)
    /\ leaf = under (Index (i + j)) leaf'.
Proof.
  revert i. induction vs as [|v vs IH]; intros i; simpl; [intros []|].
  rewrite in_app_iff, in_map_iff. intros [(leaf' & <- & Hin)|Hin].
  - exists 0%nat, v, leaf'. rewrite Nat.add_0_r. auto.
  - destruct (IH _ Hin) as (j & v' & leaf' & Hn & Hin' & ->).
    exists (S j), v', leaf'. rewrite Nat.add_succ_r. auto.
Qed.

Lemma in_entries_of kvs leaf :
  In leaf (entries_of kvs) ->
  exists k v leaf',
    In (k, v) kvs /\ In leaf' (leaves v) /\ leaf = under (Key k) leaf'.
Proof.
  induction kvs as [|[k v] kvs IH]; simpl; [intros []|].
  rewrite in_app_iff, in_map_iff. intros [(leaf' & <- & Hin)|Hin].
  - exists k, v, leaf'. auto.
  - destruct (IH Hin) as (k' & v' & leaf' & Hkv & Hin' & ->).
    exists k', v', leaf'. auto.
Qed.

(** ** A leaf's rendered path leads back to the leaf *)

Lemma follow_leaf o :
  wf o -> keys_ok o ->
  forall leaf, In leaf (leaves o) ->
    follow o (map render_token (fst leaf)) = Ok (JStr (snd leaf)).
Proof.
  induction o as [| b | n | f | s | l IH | d IH] using json_induction;
    intros Hwf Hk leaf Hin; try (now destruct Hin).
  - destruct Hin as [<-|[]]. reflexivity.
  - rewrite leaves_list in Hin.
    apply in_elements_from in Hin as (j & v & leaf' & Hn & Hin & ->).
    cbn [under fst snd map render_token follow Nat.add].
    rewrite (path_step_index _ _ _ Hn). cbn [bind].
    apply wf_list in Hwf. apply keys_ok_list in Hk.
    rewrite Forall_forall in IH, Hwf, Hk.
    pose proof (nth_error_In _ _ Hn) as Hv. auto.
  - rewrite leaves_dict in Hin.
    apply in_entries_of in Hin as (k & v & leaf' & Hkv & Hin & ->).
    cbn [under fst snd map render_token follow].
    apply wf_dict in Hwf as [Hnd Hwf]. apply keys_ok_dict in Hk.
    rewrite Forall_forall in IH, Hwf, Hk.
    destruct (Hk _ Hkv) as [Hkey Hkv_ok]. simpl in Hkey, Hkv_ok.
    rewrite (path_step_key _ _ Hkey). cbn [bind].
    unfold dict_get. rewrite (lookup_in _ _ _ Hnd Hkv).
    apply (IH _ Hkv); [apply (Hwf _ Hkv) | exact Hkv_ok | exact Hin].
Qed.

(** No token of a leaf's path holds a ['.'] when the keys are [key_ok]. *)
Lemma leaf_path_without_dot o :
  keys_ok o ->
  forall leaf, In leaf (leaves o) ->
    Forall (fun t => Str.contains t "." = false) (map render_token (fst leaf)).
Proof.
  induction o as [| b | n | f | s | l IH | d IH] using json_induction;
    intros Hk leaf Hin; try (now destruct Hin).
  - destruct Hin as [<-|[]]. constructor.
  - rewrite leaves_list in Hin.
    apply in_elements_from in Hin as (j & v & leaf' & Hn & Hin & ->).
    cbn [under fst map render_token]. constructor; [apply contains_dot_index_token|].
    apply keys_ok_list in Hk. rewrite Forall_forall in IH, Hk.
    pose proof (nth_error_In _ _ Hn) as Hv. apply (IH _ Hv); auto.
  - rewrite leaves_dict in Hin.
    apply in_entries_of in Hin as (k & v & leaf' & Hkv & Hin & ->).
    cbn [under fst map render_token].
    apply keys_ok_dict in Hk. rewrite Forall_forall in IH, Hk.
    destruct (Hk _ Hkv) as [Hkey Hkv_ok]. simpl in Hkey, Hkv_ok.
    constructor.
    + unfold key_ok in Hkey. apply andb_true_iff in Hkey as [Hkey _].
      now apply negb_true_iff in Hkey.
    + apply (IH _ Hkv); assumption.
Qed.

(** The winner, as a leaf of the document. *)
Lemma extract_leaf o code path :
  extract_code_from_json o = (Some code, Some path) ->
  exists before leaf after,
    filter qualifies (leaves o) = (before ++ leaf :: after)%list
    /\ code = Str.strip (snd leaf)
    /\ path = Str.join "." (map render_token (fst leaf))
    /\ Forall (fun x => (score (Str.strip (snd x)) < score (Str.strip (snd leaf)))%Z) before
    /\ Forall (fun x => (score (Str.strip (snd x)) <= score (Str.strip (snd leaf)))%Z) after.
Proof.
  intros He.
  destruct (extract_some _ _ _ He) as (cb & c & ca & Hw & <- & <- & Hb & Ha).
  rewrite walk_root in Hw.
  apply map_eq_app in Hw as (before & rest & Hf & <- & Hrest).
  apply map_eq_cons in Hrest as (leaf & after & -> & <- & <-).
  exists before, leaf, after. split; [exact Hf|].
  split; [reflexivity|]. split; [reflexivity|].
  rewrite Forall_map in Hb, Ha. split; assumption.
Qed.

(* ================================================================== *)
(** * The extractor *)

Lemma score_candidate_of prefix leaf :
  cand_score (candidate_of prefix leaf) = score (Str.strip (snd leaf)).
Proof. reflexivity. Qed.

Lemma score_lt_of_newlines s t :
  Re.search CODE_TOKEN_RE s = Re.search CODE_TOKEN_RE t ->
  (Str.count t Str.newline < Str.count s Str.newline)%Z ->
  (score t < score s)%Z.
Proof. unfold score. intros ->. destruct (Re.search CODE_TOKEN_RE t); lia. Qed.

Lemma walk_nonempty_extract o :
  walk o [] [] <> [] ->
  exists code path, extract_code_from_json o = (Some code, Some path).
Proof.
  intros Hne. unfold extract_code_from_json.
  destruct (walk o [] []) as [|c cs]; [congruence|].
  destruct (sort_desc (c :: cs)) as [|[[sc code] toks] rest] eqn:Hs.
  - apply sort_desc_nil in Hs. discriminate.
  - eauto.
Qed.

(** C1.  Every string leaf that passes the length filter becomes a
    candidate whose score is 10 times the number of newlines of the trimmed
    text, plus 20 when [CODE_TOKEN_RE] matches it; [extract_code_from_json]
    returns the trimmed text of a candidate of greatest score (and returns
    one as soon as there is a candidate); and when exactly two leaves
    qualify, with the same match status and different newline counts, the
    one with more newlines is returned, whichever comes first. *)
Theorem extract_scores_and_takes_greatest (o : json) :
  walk o [] [] = map (candidate_of []) (filter qualifies (leaves o))
  /\ Forall (fun c =>
               cand_score c
               = (Str.count (cand_text c) Str.newline * 10
                  + (if Re.search CODE_TOKEN_RE (cand_text c) then 20 else 0))%Z)
            (walk o [] [])
  /\ (walk o [] [] <> [] ->
      exists code path, extract_code_from_json o = (Some code, Some path))
  /\ (forall code path,
        extract_code_from_json o = (Some code, Some path) ->
        exists c, In c (walk o [] []) /\ cand_text c = code
                  /\ Forall (fun x => (cand_score x <= cand_score c)%Z) (walk o [] []))
  /\ (forall a b,
        filter qualifies (leaves o) = [a; b] \/ filter qualifies (leaves o) = [b; a] ->
        Re.search CODE_TOKEN_RE (Str.strip (snd a))
        = Re.search CODE_TOKEN_RE (Str.strip (snd b)) ->
        (Str.count (Str.strip (snd b)) Str.newline
         < Str.count (Str.strip (snd a)) Str.newline)%Z ->
        extract_code_from_json o
        = (Some (Str.strip (snd a)), Some (Str.join "." (map render_token (fst a))))).
Proof.
  split; [apply walk_root|].
  split.
  { rewrite walk_root, Forall_map. apply Forall_forall. intros leaf _. reflexivity. }
  split; [apply walk_nonempty_extract|].
  split.
  - intros code path He.
    destruct (extract_some _ _ _ He) as (before & c & after & Hw & Hc & _ & Hb & Ha).
    exists c. rewrite Hw. split; [apply in_elt|]. split; [exact Hc|].
    rewrite Forall_app. split.
    + eapply Forall_impl; [|exact Hb]. simpl; intros; lia.
    + constructor; [lia | exact Ha].
  - intros a b Hab Hre Hnl.
    pose proof (score_lt_of_newlines _ _ Hre Hnl) as Hlt.
    pose proof (walk_root o) as Hw.
    destruct Hab as [Hab|Hab]; rewrite Hab in Hw; cbn [map] in Hw.
    + apply (extract_of_split o [] (candidate_of [] a) [candidate_of [] b] Hw).
      * constructor.
      * constructor; [|constructor]. rewrite !score_candidate_of. lia.
    + apply (extract_of_split o [candidate_of [] b] (candidate_of [] a) [] Hw).
      * constructor; [|constructor]. rewrite !score_candidate_of. lia.
      * constructor.
Qed.


(** C3.  [extract_code_from_json] returns [(None, None)] exactly when no
    string leaf has a trimmed length of at least 10; the leaves under 10
    characters never become candidates. *)
Theorem extract_none_iff_no_leaf_of_10 (o : json) :
  (extract_code_from_json o = (None, None)
   <-> Forall (fun leaf => (String.length (Str.strip (snd leaf)) < 10)%nat) (leaves o))
  /\ walk o [] [] = map (candidate_of []) (filter qualifies (leaves o))
  /\ Forall (fun c => (10 <= String.length (cand_text c))%nat) (walk o [] []).
Proof.
  assert (Hq : forall leaf, qualifies leaf = true
                            <-> (10 <= String.length (Str.strip (snd leaf)))%nat).
  { intros leaf. unfold qualifies. apply Nat.leb_le. }
  split; [|split; [apply walk_root|]].
  - rewrite extract_none, walk_root. split.
    + intros Hm. apply Forall_forall. intros leaf Hin.
      destruct (Nat.lt_ge_cases (String.length (Str.strip (snd leaf))) 10) as [|Hge];
        [assumption|].
      apply Hq in Hge.
      assert (In leaf (filter qualifies (leaves o))) as Hf by (apply filter_In; auto).
      apply (in_map (candidate_of [])) in Hf. rewrite Hm in Hf. destruct Hf.
    + intros Hall. rewrite Forall_forall in Hall.
      destruct (filter qualifies (leaves o)) as [|leaf rest] eqn:Hf; [reflexivity|].
      assert (In leaf (filter qualifies (leaves o))) as Hin by (rewrite Hf; left; reflexivity).
      apply filter_In in Hin as [Hin Hql]. apply Hq in Hql. specialize (Hall _ Hin). lia.
  - rewrite walk_root, Forall_map. apply Forall_forall. intros leaf Hin.
    apply filter_In in Hin as [_ Hql]. apply Hq in Hql. exact Hql.
Qed.

(** C4, as the code has it.  The path returned with the winner is the
    winner's tokens, a key as itself and an index as [[i]], joined with
    ['.'] between every two tokens: an index token too is preceded by a
    ['.'] (["data.[0]"]), and two keys give ["result.answer"]. *)
Theorem extract_path_joins_every_token_with_dot (o : json) :
  (forall code path,
     extract_code_from_json o = (Some code, Some path) ->
     exists leaf,
       In leaf (leaves o) /\ qualifies leaf = true
       /\ code = Str.strip (snd leaf)
       /\ path = Str.join "." (map render_token (fst leaf)))
  /\ (forall t t' ts,
        Str.join "." (map render_token (t :: t' :: ts))
        = render_token t ++ "." ++ Str.join "." (map render_token (t' :: ts)))
  /\ Str.join "." (map render_token [Key "result"; Key "answer"]) = "result.answer"
  /\ Str.join "." (map render_token [Key "data"; Index 0]) = "data.[0]".
Proof.
  split; [|split; [|split]]; try reflexivity.
  intros code path He.
  destruct (extract_leaf _ _ _ He) as (before & leaf & after & Hf & Hc & Hp & _).
  exists leaf.
  assert (In leaf (filter qualifies (leaves o))) as Hin by (rewrite Hf; apply in_elt).
  apply filter_In in Hin as [Hin Hq]. auto.
Qed.

(* ================================================================== *)
(** * The request handler *)

Lemma unusable_false c : unusable (Some c) = false <-> c <> "".
Proof. simpl. apply String.eqb_neq. Qed.

Lemma truthy_str cp : truthy (JStr cp) = true <-> cp <> "".
Proof. simpl. rewrite negb_true_iff. apply String.eqb_neq. Qed.

Lemma try_explicit_path_str payload cp :
  cp <> "" ->
  try_explicit_path payload (JStr cp)
  = match follow payload (Str.split cp ".") with
    | Ok cur => Ok (normalize_code cur, Some cp)
    | Raise _ => Ok (None, None)
    end.
Proof.
  intros Hcp. unfold try_explicit_path.
  now rewrite (proj2 (truthy_str cp) Hcp).
Qed.

Lemma try_common_fields_first d commons st before common after :
  commons = (before ++ common :: after)%list ->
  Forall (fun k => truthy (dict_get d k JNone) = false) before ->
  truthy (dict_get d common JNone) = true ->
  try_common_fields (JDict d) commons st
  = Ok (normalize_code (dict_get d common JNone), Some common).
Proof.
  intros -> Hb Hc. induction Hb as [|k before Hk _ IH]; simpl.
  - now rewrite Hc.
  - now rewrite Hk.
Qed.

Lemma try_common_fields_none d commons st :
  Forall (fun k => truthy (dict_get d k JNone) = false) commons ->
  try_common_fields (JDict d) commons st = Ok st.
Proof.
  induction 1 as [|k ks Hk _ IH]; simpl; [reflexivity|]. now rewrite Hk.
Qed.

Lemma try_common_fields_dict d commons st :
  exists st', try_common_fields (JDict d) commons st = Ok st'.
Proof.
  induction commons as [|k ks IH]; simpl; [eauto|].
  destruct (truthy (dict_get d k JNone)); eauto.
Qed.

Lemma resolve_explicit payload cp cur c :
  cp <> "" ->
  follow payload (Str.split cp ".") = Ok cur ->
  normalize_code cur = Some c -> c <> "" ->
  resolve payload (JStr cp) = Ok (Some c, Some cp).
Proof.
  intros Hcp Hf Hn Hc. unfold resolve.
  rewrite (try_explicit_path_str _ _ Hcp), Hf, Hn. cbn [bind fst].
  rewrite (proj2 (unusable_false c) Hc). cbn [bind fst].
  now rewrite (proj2 (unusable_false c) Hc).
Qed.

Lemma resolve_cases payload code_path st :
  resolve payload code_path = Ok st ->
  (exists st1,
      try_explicit_path payload code_path = Ok st1
      /\ unusable (fst st1) = false /\ st = st1)
  \/ (exists st1 st2,
         try_explicit_path payload code_path = Ok st1
         /\ unusable (fst st1) = true
         /\ try_common_fields payload COMMON_FIELDS st1 = Ok st2
         /\ unusable (fst st2) = false /\ st = st2)
  \/ (exists st1 st2,
         try_explicit_path payload code_path = Ok st1
         /\ unusable (fst st1) = true
         /\ try_common_fields payload COMMON_FIELDS st1 = Ok st2
         /\ unusable (fst st2) = true /\ st = auto_extract payload st2).
Proof.
  unfold resolve.
  destruct (try_explicit_path payload code_path) as [st1|e] eqn:He; [|discriminate].
  cbn [bind]. destruct (unusable (fst st1)) eqn:H1.
  - destruct (try_common_fields payload COMMON_FIELDS st1) as [st2|e] eqn:Hc;
      [|discriminate].
    cbn [bind]. destruct (unusable (fst st2)) eqn:H2; intros [= <-].
    + right; right. exists st1, st2. repeat split; assumption.
    + right; left. exists st1, st2. repeat split; assumption.
  - cbn [bind]. rewrite H1. intros [= <-]. left. exists st1. repeat split; assumption.
Qed.

Lemma resolve_after_explicit payload code_path st1 :
  try_explicit_path payload code_path = Ok st1 ->
  unusable (fst st1) = true ->
  resolve payload code_path
  = (st2 <- try_common_fields payload COMMON_FIELDS st1 ;;
     Ok (if unusable (fst st2) then auto_extract payload st2 else st2)).
Proof.
  intros He Hu. unfold resolve. rewrite He. cbn [bind]. now rewrite Hu.
Qed.

(** The common-field lookup calls [payload.get]: on a payload that is not
    a mapping it raises, whatever the explicit path did before. *)
Lemma resolve_non_mapping_raises payload code_path st1 :
  (forall d, payload <> JDict d) ->
  try_explicit_path payload code_path = Ok st1 ->
  unusable (fst st1) = true ->
  resolve payload code_path = Raise AttributeError.
Proof.
  intros Hp He Hu. rewrite (resolve_after_explicit _ _ _ He Hu).
  destruct payload; try reflexivity. now destruct (Hp d).
Qed.

Lemma route_nonempty b :
  b <> [] ->
  explain_json_route (JDict b)
  = match resolve (dict_get b "payload" (JDict b))
                  (py_or (dict_get b "code_path" JNone) JNone) with
    | Ok (Some code, used_path) =>
        if String.eqb code "" then ([], Error400 "No code found")
        else answer b code used_path
    | Ok (None, _) => ([], Error400 "No code found")
    | Raise _ => ([], Unhandled)
    end.
Proof.
  intros Hb. unfold explain_json_route.
  destruct b as [|kv b]; [congruence|]. cbn [truthy negb].
  destruct (resolve _ _) as [[[code|] up]|e]; reflexivity.
Qed.

Lemma route_usable b c up :
  b <> [] ->
  resolve (dict_get b "payload" (JDict b))
          (py_or (dict_get b "code_path" JNone) JNone) = Ok (Some c, up) ->
  c <> "" ->
  explain_json_route (JDict b) = answer b c up.
Proof.
  intros Hb Hr Hc. rewrite (route_nonempty _ Hb), Hr.
  now rewrite (proj2 (String.eqb_neq c "") Hc).
Qed.

Lemma answer_reply b c up :
  (exists resp,
      answer b c up
      = ([make_prompt (py_or (dict_get b "language" JNone) (JStr "unspecified")) c],
         Json200 {| extracted_path := up;
                    extracted_preview := make_preview c;
                    language := py_or (dict_get b "language" JNone) (JStr "unspecified");
                    explanation := explanation_of resp |}))
  \/ answer b c up
     = ([make_prompt (py_or (dict_get b "language" JNone) (JStr "unspecified")) c],
        Unhandled).
Proof.
  unfold answer. destruct (generate_content _) as [resp|]; eauto.
Qed.

(** C5.  The three strategies come in strict order.  (1) A [code_path]
    whose walk gives a usable value decides the resolution, and the answer
    of the handler, whatever fields the payload has.  (2) When the explicit
    path gives nothing, the keys [code], [source], [snippet], [text] of a
    mapping payload are tried in that order and the first truthy value is
    taken.  (3) The extractor runs, on the payload, only when both gave
    nothing: every resolution is one of these three cases. *)
Theorem resolution_takes_first_success (payload : json) :
  COMMON_FIELDS = ["code"; "source"; "snippet"; "text"]
  /\ (forall cp cur c,
        cp <> "" ->
        follow payload (Str.split cp ".") = Ok cur ->
        normalize_code cur = Some c -> c <> "" ->
        resolve payload (JStr cp) = Ok (Some c, Some cp)
        /\ forall b,
             b <> [] ->
             dict_get b "payload" (JDict b) = payload ->
             dict_get b "code_path" JNone = JStr cp ->
             explain_json_route (JDict b) = answer b c (Some cp))
  /\ (forall code_path d st1 before common after,
        payload = JDict d ->
        try_explicit_path payload code_path = Ok st1 ->
        unusable (fst st1) = true ->
        COMMON_FIELDS = (before ++ common :: after)%list ->
        Forall (fun k => truthy (dict_get d k JNone) = false) before ->
        truthy (dict_get d common JNone) = true ->
        try_common_fields payload COMMON_FIELDS st1
        = Ok (normalize_code (dict_get d common JNone), Some common)
        /\ (unusable (normalize_code (dict_get d common JNone)) = false ->
            resolve payload code_path
            = Ok (normalize_code (dict_get d common JNone), Some common)))
  /\ (forall code_path st1 st2,
        try_explicit_path payload code_path = Ok st1 ->
        unusable (fst st1) = true ->
        try_common_fields payload COMMON_FIELDS st1 = Ok st2 ->
        unusable (fst st2) = true ->
        resolve payload code_path = Ok (auto_extract payload st2))
  /\ (forall code_path st,
        resolve payload code_path = Ok st ->
        (exists st1,
            try_explicit_path payload code_path = Ok st1
            /\ unusable (fst st1) = false /\ st = st1)
        \/ (exists st1 st2,
               try_explicit_path payload code_path = Ok st1
               /\ unusable (fst st1) = true
               /\ try_common_fields payload COMMON_FIELDS st1 = Ok st2
               /\ unusable (fst st2) = false /\ st = st2)
        \/ (exists st1 st2,
               try_explicit_path payload code_path = Ok st1
               /\ unusable (fst st1) = true
               /\ try_common_fields payload COMMON_FIELDS st1 = Ok st2
               /\ unusable (fst st2) = true /\ st = auto_extract payload st2)).
Proof.
  split; [reflexivity|]. split; [|split; [|split]].
  - intros cp cur c Hcp Hf Hn Hc.
    pose proof (resolve_explicit _ _ _ _ Hcp Hf Hn Hc) as Hr.
    split; [exact Hr|].
    intros b Hb Hp Hcpath. apply route_usable; [exact Hb| |exact Hc].
    rewrite Hp, Hcpath. unfold py_or. now rewrite (proj2 (truthy_str cp) Hcp).
  - intros code_path d st1 before common after -> He Hu Hsplit Hbefore Hcommon.
    pose proof (try_common_fields_first d _ st1 _ _ _ Hsplit Hbefore Hcommon) as Hc.
    split; [exact Hc|].
    intros Hus. rewrite (resolve_after_explicit _ _ _ He Hu), Hc. cbn [bind fst].
    now rewrite Hus.
  - intros code_path st1 st2 He Hu Hc Hu2.
    rewrite (resolve_after_explicit _ _ _ He Hu), Hc. cbn [bind]. now rewrite Hu2.
  - intros code_path st. apply resolve_cases.
Qed.

(** What the handler does after a failed walk.  A non-empty [code_path]
    whose walk raises, by an exception of any kind, or ends on a missing
    key never makes the explicit stage raise: the stage ends with no code,
    and the resolution is what the common fields and then the extractor
    make of the payload (the resolution of the request without [code_path]
    when the walk raised).  For a payload that is a mapping the resolution
    then never raises, and a usable [code] field decides the resolution
    and the answer.  (For a payload that is not a mapping the common-field
    stage raises: [resolve_non_mapping_raises].) *)
Theorem failed_path_falls_through (payload : json) (cp : string) :
  cp <> "" ->
  (exists e, follow payload (Str.split cp ".") = Raise e)
  \/ follow payload (Str.split cp ".") = Ok JNone ->
  (exists used_path,
      try_explicit_path payload (JStr cp) = Ok (None, used_path)
      /\ resolve payload (JStr cp)
         = (st2 <- try_common_fields payload COMMON_FIELDS (None, used_path) ;;
            Ok (if unusable (fst st2) then auto_extract payload st2 else st2)))
  /\ ((exists e, follow payload (Str.split cp ".") = Raise e) ->
      resolve payload (JStr cp) = resolve payload JNone)
  /\ (forall d, payload = JDict d -> exists st, resolve payload (JStr cp) = Ok st)
  /\ (forall d c,
        payload = JDict d ->
        truthy (dict_get d "code" JNone) = true ->
        normalize_code (dict_get d "code" JNone) = Some c -> c <> "" ->
        resolve payload (JStr cp) = Ok (Some c, Some "code")
        /\ forall b,
             b <> [] ->
             dict_get b "payload" (JDict b) = payload ->
             dict_get b "code_path" JNone = JStr cp ->
             explain_json_route (JDict b) = answer b c (Some "code")).
Proof.
  intros Hcp Hfail.
  assert (exists used_path,
             try_explicit_path payload (JStr cp) = Ok (None, used_path)
             /\ ((exists e, follow payload (Str.split cp ".") = Raise e) ->
                 used_path = None)) as (up & He & Hup).
  { rewrite (try_explicit_path_str _ _ Hcp).
    destruct Hfail as [[e ->]| ->].
    - exists None. split; reflexivity.
    - exists (Some cp). split; [reflexivity|]. intros [e He]. discriminate. }
  assert (resolve payload (JStr cp)
          = (st2 <- try_common_fields payload COMMON_FIELDS (None, up) ;;
             Ok (if unusable (fst st2) then auto_extract payload st2 else st2))) as Hr
      by (apply resolve_after_explicit; [exact He | reflexivity]).
  split; [exists up; split; assumption|].
  split; [|split].
  - intros Hraise. rewrite Hr, (Hup Hraise). reflexivity.
  - intros d ->. rewrite Hr.
    destruct (try_common_fields_dict d COMMON_FIELDS (None, up)) as [st2 ->].
    cbn [bind]. eauto.
  - intros d c -> Ht Hn Hc.
    assert (resolve (JDict d) (JStr cp) = Ok (Some c, Some "code")) as Hres.
    { rewrite Hr.
      rewrite (try_common_fields_first d COMMON_FIELDS (None, up) [] "code"
                 ["source"; "snippet"; "text"] eq_refl (Forall_nil _) Ht).
      rewrite Hn. cbn [bind fst]. now rewrite (proj2 (unusable_false c) Hc). }
    split; [exact Hres|].
    intros b Hb Hp Hcpath. apply route_usable; [exact Hb| |exact Hc].
    rewrite Hp, Hcpath. unfold py_or. now rewrite (proj2 (truthy_str cp) Hcp).
Qed.

(** C7, as the code has it.  [normalize_code] returns a string as it is;
    joins, with newlines, the [str] of the elements of a sequence that are
    strings, integers, floats or booleans (a boolean as [True] or [False]),
    dropping [None], nested sequences and mappings; gives [None] for
    [None], which the handler takes as no value; and gives [str] of any
    other value. *)
Theorem normalize_code_by_type :
  (forall s, normalize_code (JStr s) = Some s)
  /\ (forall l,
        normalize_code (JList l)
        = Some (Str.join (String Str.newline "") (map str (filter is_str_int_float l))))
  /\ (forall l x,
        In x (filter is_str_int_float l)
        <-> In x l /\ ((exists s, x = JStr s) \/ (exists n, x = JInt n)
                       \/ (exists f, x = JFloat f) \/ (exists b, x = JBool b)))
  /\ (forall s, str (JStr s) = s)
  /\ (forall n, str (JInt n) = Str.of_int n)
  /\ (forall b, str (JBool b) = if b then "True" else "False")
  /\ (normalize_code JNone = None
      /\ unusable (normalize_code JNone) = true
      /\ truthy JNone = false)
  /\ (forall b, normalize_code (JBool b) = Some (str (JBool b)))
  /\ (forall n, normalize_code (JInt n) = Some (str (JInt n)))
  /\ (forall f, normalize_code (JFloat f) = Some (str (JFloat f)))
  /\ (forall d, normalize_code (JDict d) = Some (str (JDict d))).
Proof.
  split; [reflexivity|]. split; [reflexivity|]. split.
  { intros l x. rewrite filter_In. split.
    - intros [Hin Hx]. split; [exact Hin|].
      destruct x; try discriminate; eauto 6.
    - intros [Hin Hx]. split; [exact Hin|].
      destruct Hx as [[? ->]|[[? ->]|[[? ->]|[? ->]]]]; reflexivity. }
  repeat split.
Qed.

(** C8, as the code has it.  The handler answers [Invalid request], with
    no resolution and no generation call, exactly when the parsed body is
    falsy: a body that did not parse, or an empty mapping.  For a
    non-empty mapping body the resolution runs: when it completes,
    [No code found] is the answer exactly when it ended without a usable
    string, which is when each of the three strategies gave none, and then
    no prompt is sent; with a mapping payload and a [code_path] that is
    absent or a string it always completes. *)
Theorem route_rejections (body : json) :
  (snd (explain_json_route body) = Error400 "Invalid request" <-> truthy body = false)
  /\ (truthy body = false -> explain_json_route body = ([], Error400 "Invalid request"))
  /\ (forall b,
        body = JDict b -> b <> [] ->
        let payload := dict_get b "payload" body in
        let code_path := py_or (dict_get b "code_path" JNone) JNone in
        (snd (explain_json_route body) = Error400 "No code found"
         <-> exists st, resolve payload code_path = Ok st /\ unusable (fst st) = true)
        /\ (snd (explain_json_route body) = Error400 "No code found" ->
            fst (explain_json_route body) = [])
        /\ (forall st,
              resolve payload code_path = Ok st ->
              (unusable (fst st) = true
               <-> exists st1 st2,
                     try_explicit_path payload code_path = Ok st1
                     /\ unusable (fst st1) = true
                     /\ try_common_fields payload COMMON_FIELDS st1 = Ok st2
                     /\ unusable (fst st2) = true
                     /\ unusable (fst (extract_code_from_json payload)) = true))
        /\ (forall d,
              payload = JDict d ->
              code_path = JNone \/ (exists cp, code_path = JStr cp) ->
              exists st, resolve payload code_path = Ok st)).
Proof.
  assert (Hans : forall b c up, snd (answer b c up) <> Error400 "Invalid request"
                                /\ snd (answer b c up) <> Error400 "No code found").
  { intros b c up. destruct (answer_reply b c up) as [[resp ->]| ->];
      split; discriminate. }
  split; [|split].
  - unfold explain_json_route. destruct (truthy body) eqn:Ht; cbn [negb].
    + split; [|discriminate]. intros H. exfalso.
      destruct body as [| | | | | |b]; try discriminate H.
      destruct (resolve _ _) as [[[code|] up]|e]; try discriminate H.
      destruct (String.eqb code ""); [discriminate H|].
      exact (proj1 (Hans b code up) H).
    + split; reflexivity.
  - intros Ht. unfold explain_json_route. now rewrite Ht.
  - intros b -> Hb payload code_path.
    rewrite (route_nonempty _ Hb). fold payload code_path.
    split; [|split; [|split]].
    + destruct (resolve payload code_path) as [[[code|] up]|e] eqn:Hr.
      * destruct (String.eqb_spec code "") as [->|Hne].
        -- split; [eauto | reflexivity].
        -- split.
           ++ intros H. exfalso. exact (proj2 (Hans b code up) H).
           ++ intros (st & [= <-] & Hu). apply unusable_false in Hne. simpl in *. congruence.
      * split; [eauto | reflexivity].
      * split; [discriminate | intros (st & H & _); discriminate].
    + destruct (resolve payload code_path) as [[[code|] up]|e];
        try (intros _; reflexivity).
      destruct (String.eqb code ""); [intros _; reflexivity|].
      intros H. exfalso. exact (proj2 (Hans b code up) H).
    + intros st Hr. split.
      * intros Hu.
        destruct (resolve_cases _ _ _ Hr)
          as [(st1 & _ & H1 & ->)|[(st1 & st2 & _ & _ & _ & H2 & ->)
                                  |(st1 & st2 & He & H1 & Hc & H2 & ->)]];
          try congruence.
        exists st1, st2. repeat split; try assumption.
        unfold auto_extract in Hu.
        destruct (extract_code_from_json payload) as [cv ap]. cbn [fst].
        destruct (unusable cv) eqn:Hcv; [reflexivity|].
        cbn [fst] in Hu. congruence.
      * intros (st1 & st2 & He & H1 & Hc & H2 & Hx).
        rewrite (resolve_after_explicit _ _ _ He H1), Hc in Hr. cbn [bind] in Hr.
        rewrite H2 in Hr. injection Hr as <-.
        unfold auto_extract.
        destruct (extract_code_from_json payload) as [cv ap]. cbn [fst] in Hx.
        now rewrite Hx.
    + intros d Hp Hcp. unfold resolve.
      assert (exists st1, try_explicit_path payload code_path = Ok st1) as [st1 ->].
      { destruct Hcp as [->|[cp ->]]; [cbn; eauto|].
        unfold try_explicit_path. destruct (truthy (JStr cp)); [|eauto].
        destruct (follow payload (Str.split cp ".")); eauto. }
      cbn [bind]. rewrite Hp.
      destruct (unusable (fst st1)); cbn [bind]; [|eauto].
      destruct (try_common_fields_dict d COMMON_FIELDS st1) as [st2 ->]. cbn [bind]. eauto.
Qed.

Lemma substring_0_prefix n s :
  (n <= String.length s)%nat ->
  exists rest, s = String.substring 0 n s ++ rest.
Proof.
  revert s. induction n as [|n IH]; intros [|a s] H; simpl in *; try lia.
  - exists "". reflexivity.
  - exists (String a s). reflexivity.
  - destruct (IH s) as [rest Hr]; [lia|]. exists rest. now rewrite <- Hr.
Qed.

(** C9.  The preview of a success answer is the resolved code when it has
    at most 2000 characters, and otherwise its first 2000 characters
    followed by the truncation marker: 2500 characters give 2000 and the
    marker, 500 characters are returned whole. *)
Theorem preview_cut_at_2000 :
  (forall c, (String.length c <= 2000)%nat -> make_preview c = c)
  /\ (forall c,
        (2000 < String.length c)%nat ->
        make_preview c = Str.slice_to 2000 c ++ TRUNCATED
        /\ String.length (Str.slice_to 2000 c) = 2000%nat
        /\ exists rest, c = Str.slice_to 2000 c ++ rest)
  /\ (forall c,
        String.length c = 2500%nat ->
        make_preview c = Str.slice_to 2000 c ++ TRUNCATED
        /\ String.length (Str.slice_to 2000 c) = 2000%nat)
  /\ (forall c, String.length c = 500%nat -> make_preview c = c)
  /\ (forall body prompts r,
        explain_json_route body = (prompts, Json200 r) ->
        exists b c,
          body = JDict b
          /\ resolve (dict_get b "payload" body)
                     (py_or (dict_get b "code_path" JNone) JNone)
             = Ok (Some c, extracted_path r)
          /\ c <> ""
          /\ extracted_preview r = make_preview c).
Proof.
  assert (Hle : forall c, (String.length c <= 2000)%nat -> make_preview c = c).
  { intros c H. unfold make_preview.
    now rewrite (proj2 (Nat.leb_le _ _) H). }
  assert (Hgt : forall c, (2000 < String.length c)%nat ->
                          make_preview c = Str.slice_to 2000 c ++ TRUNCATED
                          /\ String.length (Str.slice_to 2000 c) = 2000%nat
                          /\ exists rest, c = Str.slice_to 2000 c ++ rest).
  { intros c H. unfold make_preview, Str.slice_to.
    rewrite (proj2 (Nat.leb_gt _ _) H).
    split; [reflexivity|]. split.
    - apply substring_0_length. lia.
    - apply substring_0_prefix. lia. }
  split; [exact Hle|]. split; [exact Hgt|]. split; [|split].
  - intros c H. destruct (Hgt c) as (H1 & H2 & _); [lia|]. auto.
  - intros c H. apply Hle. lia.
  - intros body prompts r. unfold explain_json_route.
    destruct (truthy body); cbn [negb]; [|discriminate].
    destruct body as [| | | | | |b]; try discriminate.
    destruct (resolve _ _) as [[[c|] up]|e] eqn:Hr; try discriminate.
    destruct (String.eqb_spec c "") as [->|Hne]; [discriminate|].
    unfold answer. destruct (generate_content _) as [resp|]; [|discriminate].
    intros [= _ <-]. exists b, c. cbn [extracted_path extracted_preview].
    repeat split; assumption.
Qed.

(** C10.  Under keys that a dotted path can name (no ['.'], not of the
    bracketed form) in a document whose dicts hold no key twice, a
    non-empty path returned by the extractor, given back as [code_path],
    is walked with success by the explicit-path strategy, and leads to a
    string whose trimmed form is the extracted code. *)
Theorem extracted_path_walks_back (payload : json) (code path : string) :
  wf payload -> keys_ok payload ->
  extract_code_from_json payload = (Some code, Some path) ->
  path <> "" ->
  exists s,
    follow payload (Str.split path ".") = Ok (JStr s)
    /\ Str.strip s = code
    /\ try_explicit_path payload (JStr path) = Ok (Some s, Some path).
Proof.
  intros Hwf Hk He Hpath.
  destruct (extract_leaf _ _ _ He) as (before & leaf & after & Hf & -> & -> & _).
  assert (In leaf (leaves payload)) as Hin.
  { assert (In leaf (filter qualifies (leaves payload))) as H by (rewrite Hf; apply in_elt).
    now apply filter_In in H. }
  assert (map render_token (fst leaf) <> []) as Hne.
  { intros Hnil. apply Hpath. now rewrite Hnil. }
  assert (follow payload (Str.split (Str.join "." (map render_token (fst leaf))) ".")
          = Ok (JStr (snd leaf))) as Hfollow.
  { rewrite (split_join _ Hne (leaf_path_without_dot _ Hk _ Hin)).
    now apply follow_leaf. }
  exists (snd leaf). split; [exact Hfollow|]. split; [reflexivity|].
  now rewrite (try_explicit_path_str _ _ Hpath), Hfollow.
Qed.

(* ================================================================== *)
(** * Further properties of the extractor *)

Lemma lstrip_head s :
  match Str.lstrip s with
  | String a _ => Str.isspace a = false
  | EmptyString => True
  end.
Proof.
  induction s as [|a s IH]; simpl; [exact I|].
  destruct (Str.isspace a) eqn:Ha; [exact IH | exact Ha].
Qed.

Lemma rstrip_idem s : Str.rstrip (Str.rstrip s) = Str.rstrip s.
Proof.
  induction s as [|a s IH]; simpl; [reflexivity|].
  destruct (Str.rstrip s) as [|b r] eqn:Hr.
  - destruct (Str.isspace a) eqn:Ha; simpl; [reflexivity|]. now rewrite Ha.
  - change (Str.rstrip (String a (String b r)))
      with (match Str.rstrip (String b r) with
            | EmptyString => if Str.isspace a then EmptyString else String a EmptyString
            | String x y => String a (String x y)
            end).
    now rewrite IH.
Qed.

Lemma rstrip_keeps_head a s :
  Str.isspace a = false -> exists r, Str.rstrip (String a s) = String a r.
Proof.
  intros Ha. simpl. destruct (Str.rstrip s); [rewrite Ha|]; eauto.
Qed.

Lemma strip_idem s : Str.strip (Str.strip s) = Str.strip s.
Proof.
  unfold Str.strip. pose proof (lstrip_head s) as Hh.
  destruct (Str.lstrip s) as [|a t]; [reflexivity|].
  destruct (rstrip_keeps_head a t Hh) as [r Hr].
  rewrite Hr. cbn [Str.lstrip]. rewrite Hh, <- Hr. apply rstrip_idem.
Qed.

(** The text returned by the extractor is trimmed, has at least 10
    characters, and comes with a path; without a text there is no path. *)
Theorem extract_code_is_trimmed (o : json) (code : string) (path : option string) :
  extract_code_from_json o = (Some code, path) ->
  (exists p, path = Some p)
  /\ (10 <= String.length code)%nat
  /\ Str.strip code = code.
Proof.
  intros He.
  destruct path as [p|].
  - split; [eauto|].
    destruct (extract_leaf _ _ _ He) as (before & leaf & after & Hf & -> & _).
    assert (In leaf (filter qualifies (leaves o))) as Hin by (rewrite Hf; apply in_elt).
    apply filter_In in Hin as [_ Hq]. unfold qualifies in Hq. apply Nat.leb_le in Hq.
    split; [exact Hq | apply strip_idem].
  - exfalso. revert He. unfold extract_code_from_json.
    destruct (walk o [] []); [discriminate|].
    destruct (sort_desc _) as [|[[? ?] ?] ?]; discriminate.
Qed.

Lemma insert_desc_keys c1 c2 s1 s2 :
  cand_key c1 = cand_key c2 ->
  map cand_key s1 = map cand_key s2 ->
  map cand_key (insert_desc c1 s1) = map cand_key (insert_desc c2 s2).
Proof.
  intros Hc. revert s2.
  induction s1 as [|h1 t1 IH]; intros [|h2 t2] Hs; try discriminate; simpl.
  - now rewrite Hc.
  - injection Hs as Hs Hx Ht.
    assert (cand_key h1 = cand_key h2) as Hh by (unfold cand_key; congruence).
    assert (cand_score c1 = cand_score c2) as -> by (exact (f_equal fst Hc)).
    rewrite Hs.
    destruct (cand_score c2 <? cand_score h2)%Z; simpl.
    + now rewrite Hh, (IH _ Ht).
    + now rewrite Hc, Hh, Ht.
Qed.

Lemma sort_desc_keys l1 l2 :
  map cand_key l1 = map cand_key l2 ->
  map cand_key (sort_desc l1) = map cand_key (sort_desc l2).
Proof.
  revert l2. induction l1 as [|c1 l1 IH]; intros [|c2 l2] Hl; try discriminate;
    [reflexivity|].
  injection Hl as Hs Hx Hl. simpl. apply insert_desc_keys; [|auto].
  unfold cand_key. congruence.
Qed.

Lemma extract_text_of_keys o1 o2 :
  map cand_key (walk o1 [] []) = map cand_key (walk o2 [] []) ->
  fst (extract_code_from_json o1) = fst (extract_code_from_json o2).
Proof.
  intros Hk. pose proof (sort_desc_keys _ _ Hk) as Hs.
  unfold extract_code_from_json.
  destruct (walk o1 [] []) as [|a1 w1], (walk o2 [] []) as [|a2 w2];
    try discriminate; [reflexivity|].
  destruct (sort_desc (a1 :: w1)) as [|[[s1 t1] p1] r1],
           (sort_desc (a2 :: w2)) as [|[[s2 t2] p2] r2];
    try discriminate; [reflexivity|].
  injection Hs as _ Ht _. cbn [fst cand_text snd] in *. now subst.
Qed.

Lemma filter_qualifies_texts ls1 ls2 :
  map snd ls1 = map snd ls2 ->
  map snd (filter qualifies ls1) = map snd (filter qualifies ls2).
Proof.
  revert ls2. induction ls1 as [|[p1 s1] ls1 IH]; intros [|[p2 s2] ls2] H;
    try discriminate; [reflexivity|].
  injection H as Hs Ht. subst s2. cbn [filter].
  change (qualifies (p1, s1)) with (10 <=? String.length (Str.strip s1))%nat.
  change (qualifies (p2, s1)) with (10 <=? String.length (Str.strip s1))%nat.
  destruct (10 <=? String.length (Str.strip s1))%nat; cbn [map snd];
    now rewrite (IH _ Ht).
Qed.

Lemma keys_of_leaves ls :
  map cand_key (map (candidate_of []) ls)
  = map (fun s => (score (Str.strip s), Str.strip s)) (map snd ls).
Proof. rewrite !map_map. apply map_ext. reflexivity. Qed.

(** The text chosen depends on the string leaves in traversal order only:
    two documents with the same strings in the same order, whatever the
    keys and the nesting, give the same text. *)
Theorem extract_text_depends_on_leaf_strings (o1 o2 : json) :
  map snd (leaves o1) = map snd (leaves o2) ->
  fst (extract_code_from_json o1) = fst (extract_code_from_json o2).
Proof.
  intros H. apply extract_text_of_keys.
  rewrite !walk_root, !keys_of_leaves.
  now rewrite (filter_qualifies_texts _ _ H).
Qed.

Lemma entries_of_app d1 d2 :
  entries_of (d1 ++ d2) = (entries_of d1 ++ entries_of d2)%list.
Proof.
  induction d1 as [|[k v] d1 IH]; simpl; [reflexivity|].
  now rewrite IH, List.app_assoc.
Qed.

Lemma elements_from_app l1 l2 i :
  elements_from (l1 ++ l2) i
  = (elements_from l1 i ++ elements_from l2 (i + List.length l1))%list.
Proof.
  revert i. induction l1 as [|v l1 IH]; intros i; simpl.
  - now rewrite Nat.add_0_r.
  - now rewrite IH, List.app_assoc, Nat.add_succ_r.
Qed.

Lemma extract_with_later_leaves o o' code path later :
  leaves o' = (leaves o ++ later)%list ->
  extract_code_from_json o = (Some code, Some path) ->
  Forall (fun leaf => qualifies leaf = true ->
                      (score (Str.strip (snd leaf)) <= score code)%Z) later ->
  extract_code_from_json o' = (Some code, Some path).
Proof.
  intros Hl He Hlater.
  destruct (extract_some _ _ _ He) as (before & c & after & Hw & <- & <- & Hb & Ha).
  assert (cand_score c = score (cand_text c)) as Hsc.
  { assert (In c (walk o [] [])) as Hin by (rewrite Hw; apply in_elt).
    rewrite walk_root in Hin. apply in_map_iff in Hin as (leaf & <- & _). reflexivity. }
  apply (extract_of_split o' before c
           (after ++ map (candidate_of []) (filter qualifies later))).
  - rewrite walk_root, Hl, filter_app, map_app, <- walk_root, Hw.
    now rewrite <- List.app_assoc.
  - exact Hb.
  - rewrite Forall_app. split; [exact Ha|].
    rewrite Forall_map. apply Forall_forall. intros leaf Hin.
    apply filter_In in Hin as [Hin Hq]. rewrite Forall_forall in Hlater.
    rewrite score_candidate_of, Hsc. auto.
Qed.

(** First found keeps priority, at the root of the document: when the
    document itself is a mapping and an entry is added at its end, or is a
    sequence and an element is added at its end, so that the leaves added
    come last in the traversal, neither the text nor the path returned
    changes unless one of the leaves added scores strictly more than the
    text returned so far.  (An entry added to a mapping nested in the
    document comes before the leaves that follow that mapping, and wins
    over them at an equal score: [nested_entry_comes_first].) *)
Theorem extract_unchanged_by_later_entry (code path : string) (v : json) :
  Forall (fun leaf => qualifies leaf = true ->
                      (score (Str.strip (snd leaf)) <= score code)%Z) (leaves v) ->
  (forall d k,
      extract_code_from_json (JDict d) = (Some code, Some path) ->
      extract_code_from_json (JDict (d ++ [(k, v)])) = (Some code, Some path))
  /\ (forall l,
        extract_code_from_json (JList l) = (Some code, Some path) ->
        extract_code_from_json (JList (l ++ [v])) = (Some code, Some path)).
Proof.
  intros Hv. split.
  - intros d k He.
    apply (extract_with_later_leaves (JDict d) _ _ _
             (map (under (Key k)) (leaves v))); [|exact He|].
    + rewrite !leaves_dict, entries_of_app. simpl. now rewrite List.app_nil_r.
    + rewrite Forall_map. eapply Forall_impl; [|exact Hv]. auto.
  - intros l He.
    apply (extract_with_later_leaves (JList l) _ _ _
             (map (under (Index (List.length l))) (leaves v))); [|exact He|].
    + rewrite !leaves_list, elements_from_app. simpl. now rewrite List.app_nil_r.
    + rewrite Forall_map. eapply Forall_impl; [|exact Hv]. auto.
Qed.

Lemma decreasing_tail c l : decreasing (c :: l) -> decreasing l.
Proof. intros H. now inversion H. Qed.

Lemma decreasing_head c l x :
  decreasing (c :: l) -> In x l -> (cand_score x <= cand_score c)%Z.
Proof.
  intros H Hin. inversion H as [|? ? _ Hall]; subst.
  rewrite Forall_forall in Hall. auto.
Qed.

Lemma filter_has_score_eq k x l :
  cand_score x = k -> filter (has_score k) (x :: l) = x :: filter (has_score k) l.
Proof. intros H. simpl. unfold has_score at 1. now rewrite (proj2 (Z.eqb_eq _ _) H). Qed.

Lemma filter_has_score_neq k x l :
  cand_score x <> k -> filter (has_score k) (x :: l) = filter (has_score k) l.
Proof. intros H. simpl. unfold has_score at 1. now rewrite (proj2 (Z.eqb_neq _ _) H). Qed.

Lemma decreasing_determined l1 l2 :
  decreasing l1 -> decreasing l2 ->
  (forall k, filter (has_score k) l1 = filter (has_score k) l2) ->
  l1 = l2.
Proof.
  revert l2. induction l1 as [|x t IH]; intros l2 H1 H2 Hf.
  - destruct l2 as [|y t2]; [reflexivity|].
    specialize (Hf (cand_score y)).
    rewrite (filter_has_score_eq _ y) in Hf by reflexivity. discriminate.
  - destruct l2 as [|y t2].
    + specialize (Hf (cand_score x)).
      rewrite (filter_has_score_eq _ x) in Hf by reflexivity. discriminate.
    + assert (x = y) as <-.
      { pose proof (Hf (cand_score x)) as Hx.
        rewrite (filter_has_score_eq _ x) in Hx by reflexivity.
        destruct (Z.eq_dec (cand_score y) (cand_score x)) as [E|E].
        { rewrite (filter_has_score_eq _ y) in Hx by exact E. now injection Hx. }
        exfalso. rewrite (filter_has_score_neq _ y) in Hx by exact E.
        assert (In x t2) as Hxin.
        { assert (In x (filter (has_score (cand_score x)) t2)) as Hin
              by (rewrite <- Hx; left; reflexivity).
          now apply filter_In in Hin. }
        pose proof (decreasing_head _ _ _ H2 Hxin) as Hle.
        pose proof (Hf (cand_score y)) as Hy.
        rewrite (filter_has_score_eq _ y) in Hy by reflexivity.
        rewrite (filter_has_score_neq _ x) in Hy by congruence.
        assert (In y t) as Hyin.
        { assert (In y (filter (has_score (cand_score y)) t)) as Hin
              by (rewrite Hy; left; reflexivity).
          now apply filter_In in Hin. }
        pose proof (decreasing_head _ _ _ H1 Hyin) as Hge. lia. }
      f_equal. apply IH; [eapply decreasing_tail; eassumption
                         | eapply decreasing_tail; eassumption |].
      intros k. specialize (Hf k).
      destruct (Z.eq_dec (cand_score x) k) as [E|E].
      * rewrite !(filter_has_score_eq _ x) in Hf by exact E. now injection Hf.
      * now rewrite !(filter_has_score_neq _ x) in Hf by exact E.
Qed.

(** What [candidates.sort(key=..., reverse=True)] leaves in the list: the
    same candidates, by decreasing score, those of equal score in their
    former order; and it is the only such arrangement. *)
Theorem sort_desc_is_the_stable_arrangement (l : list candidate) :
  Permutation l (sort_desc l)
  /\ decreasing (sort_desc l)
  /\ (forall k, filter (has_score k) (sort_desc l) = filter (has_score k) l)
  /\ (forall l',
        decreasing l' ->
        (forall k, filter (has_score k) l' = filter (has_score k) l) ->
        l' = sort_desc l).
Proof.
  split; [apply sort_desc_perm|]. split; [apply sort_desc_decreasing|].
  split; [intros k; apply sort_desc_stable|].
  intros l' Hd Hf. apply decreasing_determined;
    [exact Hd | apply sort_desc_decreasing |].
  intros k. now rewrite Hf, sort_desc_stable.
Qed.

(** ** Paths of distinct leaves *)

Lemma index_token_inj i j : index_token i = index_token j -> i = j.
Proof.
  intros H. apply Nat2Z.inj.
  assert (Ok (Z.of_nat i) = Ok (Z.of_nat j)) as He.
  { rewrite <- !int_of_int_nat. unfold index_token in H.
    injection H as H. f_equal.
    rewrite <- (slice_brackets (Str.of_int (Z.of_nat i))).
    rewrite <- (slice_brackets (Str.of_int (Z.of_nat j))).
    simpl append. now rewrite H. }
  now injection He.
Qed.

Lemma NoDup_map_cons (t : string) (ls : list (list string)) :
  NoDup ls -> NoDup (map (cons t) ls).
Proof.
  induction 1 as [|x ls Hx _ IH]; simpl; constructor; [|exact IH].
  rewrite in_map_iff. intros (y & [= ->] & Hy). contradiction.
Qed.

Lemma rendered_under t ls :
  map rendered_path (map (under t) ls)
  = map (cons (render_token t)) (map rendered_path ls).
Proof. rewrite !map_map. apply map_ext. reflexivity. Qed.

Lemma NoDup_app_heads (l1 l2 : list (list string)) :
  NoDup l1 -> NoDup l2 ->
  (forall x, In x l1 -> In x l2 -> False) ->
  NoDup (l1 ++ l2).
Proof.
  intros H1 H2 Hd. induction H1 as [|x l1 Hx _ IH]; simpl; [exact H2|].
  constructor.
  - rewrite in_app_iff. intros [H|H]; [contradiction|].
    apply (Hd x); [left; reflexivity | exact H].
  - apply IH. intros y Hy. apply Hd. now right.
Qed.

(** In a document whose dicts hold no key twice, no two string leaves
    have the same [path_tokens]. *)
Theorem leaf_paths_are_distinct (o : json) :
  wf o -> NoDup (map rendered_path (leaves o)).
Proof.
  induction o as [| b | n | f | s | l IH | d IH] using json_induction;
    intros Hwf; try constructor; try (intros []); try constructor.
  - rewrite leaves_list. apply wf_list in Hwf.
    generalize 0%nat as i.
    induction l as [|v l IHl]; intros i; simpl; [constructor|].
    inversion IH as [|? ? Hv IHrest]; subst.
    inversion Hwf as [|? ? Hwv Hwrest]; subst.
    rewrite map_app, rendered_under. apply NoDup_app_heads.
    + apply NoDup_map_cons. auto.
    + apply IHl; assumption.
    + intros x Hx1 Hx2.
      apply in_map_iff in Hx1 as (p & <- & _).
      apply in_map_iff in Hx2 as (leaf & Hleaf & Hin).
      apply in_elements_from in Hin as (j & v' & leaf' & _ & _ & ->).
      unfold rendered_path in Hleaf. cbn [under fst map render_token] in Hleaf.
      pose proof (f_equal (hd EmptyString) Hleaf) as Ht. cbn [hd] in Ht.
      apply index_token_inj in Ht. lia.
  - rewrite leaves_dict. apply wf_dict in Hwf as [Hnd Hwf].
    induction d as [|[k v] d IHd]; simpl; [constructor|].
    inversion IH as [|? ? Hv IHrest]; subst.
    inversion Hwf as [|? ? Hwv Hwrest]; subst.
    inversion Hnd as [|? ? Hk Hnd']; subst.
    rewrite map_app, rendered_under. apply NoDup_app_heads.
    + apply NoDup_map_cons. auto.
    + apply IHd; assumption.
    + intros x Hx1 Hx2.
      apply in_map_iff in Hx1 as (p & <- & _).
      apply in_map_iff in Hx2 as (leaf & Hleaf & Hin).
      apply in_entries_of in Hin as (k' & v' & leaf' & Hkv & _ & ->).
      unfold rendered_path in Hleaf. cbn [under fst map render_token] in Hleaf.
      pose proof (f_equal (hd EmptyString) Hleaf) as Ht. cbn [hd] in Ht. subst k'.
      apply Hk. now apply (in_map fst) in Hkv.
Qed.

(** ** [CODE_TOKEN_RE] and the score *)

Lemma lower_lower a : Str.lower (Str.lower a) = Str.lower a.
Proof. destruct a as [[] [] [] [] [] [] [] []]; reflexivity. Qed.

Lemma isspace_lower a : Str.isspace (Str.lower a) = Str.isspace a.
Proof. destruct a as [[] [] [] [] [] [] [] []]; reflexivity. Qed.

Lemma isword_lower a : Str.isword (Str.lower a) = Str.isword a.
Proof. destruct a as [[] [] [] [] [] [] [] []]; reflexivity. Qed.

Lemma match_here_star p s :
  Re.match_here (Re.SpaceStar :: p) s
  = Re.match_here p s
    || match s with
       | String a s' => Str.isspace a && Re.match_here (Re.SpaceStar :: p) s'
       | EmptyString => false
       end.
Proof. destruct s; reflexivity. Qed.

Lemma match_here_lower p s :
  Re.match_here p (lower_string s) = Re.match_here p s.
Proof.
  revert s. induction p as [|[c|] p IH]; intros s; [reflexivity| |].
  - destruct s as [|a s]; [reflexivity|]. simpl. now rewrite lower_lower, IH.
  - induction s as [|a s IHs].
    + rewrite !match_here_star. now rewrite (IH EmptyString).
    + rewrite (match_here_star p (lower_string (String a s))).
      rewrite (match_here_star p (String a s)).
      rewrite (IH (String a s)). cbn [lower_string]. now rewrite isspace_lower, IHs.
Qed.

Lemma word_boundary_lower prev s :
  Re.word_boundary (option_map Str.lower prev) (lower_string s)
  = Re.word_boundary prev s.
Proof.
  unfold Re.word_boundary.
  destruct prev as [b|], s as [|a s]; simpl; now rewrite ?isword_lower.
Qed.

Lemma search_from_unfold alts prev s :
  Re.search_from alts prev s
  = Re.match_at alts prev s
    || match s with
       | String a s' => Re.search_from alts (Some a) s'
       | EmptyString => false
       end.
Proof. destruct s; reflexivity. Qed.

Lemma existsb_pointwise {A : Type} (f g : A -> bool) (l : list A) :
  (forall x, f x = g x) -> existsb f l = existsb g l.
Proof. intros H. induction l as [|x l IH]; simpl; [reflexivity|]. now rewrite H, IH. Qed.

Lemma match_at_lower alts prev s :
  Re.match_at alts (option_map Str.lower prev) (lower_string s)
  = Re.match_at alts prev s.
Proof.
  unfold Re.match_at. rewrite word_boundary_lower.
  now rewrite (existsb_pointwise _ _ alts (fun p => match_here_lower p s)).
Qed.

Lemma search_from_lower alts prev s :
  Re.search_from alts (option_map Str.lower prev) (lower_string s)
  = Re.search_from alts prev s.
Proof.
  revert prev. induction s as [|a s IH]; intros prev;
    rewrite (search_from_unfold alts _ (lower_string _)),
            (search_from_unfold alts prev), match_at_lower;
    cbn [lower_string]; [reflexivity|].
  f_equal. exact (IH (Some a)).
Qed.

Lemma count_newline_lower s : Str.count (lower_string s) Str.newline = Str.count s Str.newline.
Proof.
  induction s as [|a s IH]; simpl; [reflexivity|]. rewrite IH. f_equal.
  destruct a as [[] [] [] [] [] [] [] []]; reflexivity.
Qed.

(** The pattern is matched whatever the case of the letters: a string and
    its lowered form match alike, and score alike. *)
Theorem code_token_search_ignores_case (s : string) :
  Re.search CODE_TOKEN_RE (lower_string s) = Re.search CODE_TOKEN_RE s
  /\ score (lower_string s) = score s.
Proof.
  assert (Re.search CODE_TOKEN_RE (lower_string s) = Re.search CODE_TOKEN_RE s) as H
      by (apply (search_from_lower CODE_TOKEN_RE None s)).
  split; [exact H|]. unfold score. now rewrite H, count_newline_lower.
Qed.

Lemma count_app s t c : Str.count (s ++ t) c = (Str.count s c + Str.count t c)%Z.
Proof. induction s as [|a s IH]; simpl; [reflexivity|]. rewrite IH. lia. Qed.

Lemma count_nonneg s c : (0 <= Str.count s c)%Z.
Proof. induction s as [|a s IH]; simpl; [lia|]. destruct (Ascii.eqb a c); lia. Qed.

Lemma match_here_app p s t :
  Re.match_here p s = true -> Re.match_here p (s ++ t) = true.
Proof.
  revert s. induction p as [|[c|] p IH]; intros s; [reflexivity| |].
  - destruct s as [|a s]; simpl; [discriminate|].
    intros H. apply andb_true_iff in H as [-> H]. now apply IH.
  - induction s as [|a s IHs].
    + rewrite match_here_star, orb_false_r. intros H.
      rewrite match_here_star. now rewrite (IH _ H).
    + rewrite match_here_star. intros H.
      rewrite (match_here_star p (String a s ++ t)). cbn [append].
      apply orb_true_iff in H as [H|H].
      * pose proof (IH (String a s) H) as H'. cbn [append] in H'. now rewrite H'.
      * apply andb_true_iff in H as [-> H]. rewrite (IHs H). apply orb_true_r.
Qed.

Lemma match_at_app prev a s t :
  Re.match_at CODE_TOKEN_RE prev (String a s) = true ->
  Re.match_at CODE_TOKEN_RE prev (String a s ++ t) = true.
Proof.
  unfold Re.match_at. intros H.
  apply andb_true_iff in H as [Hb Hex]. apply andb_true_iff. split; [exact Hb|].
  apply existsb_exists in Hex as (p & Hin & Hm). apply existsb_exists.
  exists p. split; [exact Hin|]. exact (match_here_app p (String a s) t Hm).
Qed.

Lemma search_from_app prev s t :
  Re.search_from CODE_TOKEN_RE prev s = true ->
  Re.search_from CODE_TOKEN_RE prev (s ++ t) = true.
Proof.
  revert prev. induction s as [|a s IH]; intros prev.
  - rewrite search_from_unfold, orb_false_r. unfold Re.match_at.
    replace (existsb (fun p => Re.match_here p EmptyString) CODE_TOKEN_RE)
      with false by reflexivity.
    rewrite andb_false_r. discriminate.
  - rewrite search_from_unfold. intros H.
    rewrite (search_from_unfold _ prev (String a s ++ t)). cbn [append].
    apply orb_true_iff in H as [H|H].
    + pose proof (match_at_app prev a s t H) as H'. cbn [append] in H'.
      now rewrite H'.
    + rewrite (IH _ H). apply orb_true_r.
Qed.

(** Text added at the end of a string never lowers its score: a token
    found stays found, and newlines only add. *)
Theorem score_grows_with_appended_text (s t : string) :
  (Re.search CODE_TOKEN_RE s = true -> Re.search CODE_TOKEN_RE (s ++ t) = true)
  /\ (0 <= score s <= score (s ++ t))%Z.
Proof.
  assert (Re.search CODE_TOKEN_RE s = true -> Re.search CODE_TOKEN_RE (s ++ t) = true) as H
      by (apply search_from_app).
  split; [exact H|]. unfold score. rewrite count_app.
  pose proof (count_nonneg s Str.newline). pose proof (count_nonneg t Str.newline).
  destruct (Re.search CODE_TOKEN_RE s) eqn:Hs.
  - rewrite (H eq_refl). lia.
  - destruct (Re.search CODE_TOKEN_RE (s ++ t)); lia.
Qed.

(* ================================================================== *)
(** * Further properties of the explicit path *)

Lemma split_at_separator p q c :
  Str.split (p ++ String c q) c = (Str.split p c ++ Str.split q c)%list.
Proof.
  induction p as [|a p IH]; simpl.
  - now rewrite Ascii.eqb_refl.
  - destruct (Ascii.eqb a c); [now rewrite IH|].
    rewrite IH. destruct (Str.split p c) as [|h parts] eqn:Hs; [|reflexivity].
    now destruct (split_nonempty p c).
Qed.

Lemma follow_app cur parts1 parts2 :
  follow cur (parts1 ++ parts2)
  = (cur' <- follow cur parts1 ;; follow cur' parts2).
Proof.
  revert cur. induction parts1 as [|p parts1 IH]; intros cur; simpl; [reflexivity|].
  destruct (path_step cur p) as [cur'|e]; simpl; [apply IH | reflexivity].
Qed.

(** Walking the path [p.q] is walking [p], then walking [q] from where
    [p] ends; it fails where either walk fails. *)
Theorem follow_dotted_path_composes (payload : json) (p q : string) :
  follow payload (Str.split (p ++ "." ++ q) ".")
  = (cur <- follow payload (Str.split p ".") ;; follow cur (Str.split q ".")).
Proof.
  change (p ++ "." ++ q) with (p ++ String "." q).
  now rewrite split_at_separator, follow_app.
Qed.

Lemma brackets_around x :
  Str.startswith ("[" ++ x ++ "]") "[" && Str.endswith ("[" ++ x ++ "]") "]" = true.
Proof.
  rewrite <- string_app_assoc, endswith_app.
  rewrite string_app_assoc. simpl append. now rewrite startswith_cons.
Qed.

Lemma int_rstrip_cons_nonempty a s :
  Str.int_rstrip s = s -> s <> "" -> Str.int_rstrip (String a s) = String a s.
Proof.
  intros Hs Hne. simpl. rewrite Hs. destruct s; [congruence | reflexivity].
Qed.

Lemma string_of_uint_nonempty d :
  d <> Decimal.Nil -> NilEmpty.string_of_uint d <> "".
Proof. destruct d; simpl; congruence. Qed.

(** [int] reads back what [str] writes, for every integer. *)
Lemma int_of_int (z : Z) : Str.int (Str.of_int z) = Ok z.
Proof.
  destruct z as [|p|p].
  - reflexivity.
  - rewrite <- (positive_nat_Z p). apply int_of_int_nat.
  - pose proof (DecimalPos.Unsigned.to_uint_nonnil p) as Hd.
    pose proof (DecimalZ.of_to (Z.pos p)) as Hz. simpl in Hz.
    unfold Str.of_int. simpl Z.to_int. cbn [NilZero.string_of_int].
    assert (NilZero.string_of_uint (Pos.to_uint p)
            = NilEmpty.string_of_uint (Pos.to_uint p)) as ->.
    { unfold NilZero.string_of_uint. destruct (Pos.to_uint p); congruence. }
    unfold Str.int. cbn [Str.int_lstrip]. change (Str.int_space "-") with false.
    cbv iota.
    rewrite (int_rstrip_cons_nonempty _ _ (int_rstrip_uint _)
               (string_of_uint_nonempty _ Hd)).
    cbn [Str.sign_and_body]. change (Str.sign_and_body _) with
      (true, NilEmpty.string_of_uint (Pos.to_uint p)).
    rewrite digits_of_uint by (left; exact Hd). now rewrite Hz.
Qed.

Lemma path_step_int cur z :
  path_step cur ("[" ++ Str.of_int z ++ "]") = getitem cur z.
Proof.
  unfold path_step. rewrite brackets_around, slice_brackets, int_of_int. reflexivity.
Qed.

(** A segment [[z]] on a sequence is Python indexing: [z] from 0 counts
    from the front and a negative [z] from the end.  Every other [z] makes
    the step raise; the exception is [IndexError] when the numeral of [z]
    has at most 4300 digits, the length up to which [int] converts a
    numeral. *)
Theorem index_segment_on_sequence (l : list json) (z : Z) :
  let n := Z.of_nat (List.length l) in
  ((0 <= z < n)%Z ->
   exists v, nth_error l (Z.to_nat z) = Some v
             /\ path_step (JList l) ("[" ++ Str.of_int z ++ "]") = Ok v)
  /\ ((- n <= z < 0)%Z ->
      exists v, nth_error l (Z.to_nat (n + z)) = Some v
                /\ path_step (JList l) ("[" ++ Str.of_int z ++ "]") = Ok v)
  /\ ((z < - n \/ n <= z)%Z ->
      (exists e, path_step (JList l) ("[" ++ Str.of_int z ++ "]") = Raise e)
      /\ ((Z.abs z < 10 ^ 4300)%Z ->
          path_step (JList l) ("[" ++ Str.of_int z ++ "]") = Raise IndexError)).
Proof.
  intros n. rewrite path_step_int. cbn [getitem]. fold n.
  assert (forall j, (0 <= j < n)%Z -> exists v, nth_error l (Z.to_nat j) = Some v) as Hnth.
  { intros j Hj. destruct (nth_error l (Z.to_nat j)) eqn:E; [eauto|].
    apply nth_error_None in E. unfold n in Hj. lia. }
  split; [|split].
  - intros Hz. destruct (Hnth z Hz) as [v Hv]. exists v. split; [exact Hv|].
    destruct (Z.ltb_spec z 0); [lia|].
    destruct (Z.leb_spec 0 z); [|lia]. destruct (Z.ltb_spec z n); [|lia].
    cbn [andb]. now rewrite Hv.
  - intros Hz. destruct (Hnth (n + z)%Z ltac:(lia)) as [v Hv]. exists v.
    split; [exact Hv|].
    destruct (Z.ltb_spec z 0); [|lia]. rewrite (Z.add_comm z n).
    destruct (Z.leb_spec 0 (n + z)); [|lia]. destruct (Z.ltb_spec (n + z) n); [|lia].
    cbn [andb]. now rewrite Hv.
  - intros Hz.
    assert ((if (0 <=? (if z <? 0 then z + n else z)) && ((if z <? 0 then z + n else z) <? n)
             then match nth_error l (Z.to_nat (if z <? 0 then z + n else z)) with
                  | Some v => Ok v
                  | None => Raise IndexError
                  end
             else Raise IndexError)%Z = Raise IndexError) as ->.
    { destruct (Z.ltb_spec z 0).
      + destruct (Z.leb_spec 0 (z + n)); [lia|]. reflexivity.
      + destruct (Z.leb_spec 0 z); [|lia]. destruct (Z.ltb_spec z n); [lia|]. reflexivity. }
    split; [exists IndexError; reflexivity | reflexivity].
Qed.

Lemma get_some_lt i s a : String.get i s = Some a -> (i < String.length s)%nat.
Proof.
  revert i. induction s as [|b s IH]; intros [|i]; simpl; try discriminate; [lia|].
  intros H. apply IH in H. lia.
Qed.

(** An index segment applied to a string takes one character of it, and
    that one character is accepted as the code: a [code_path] that goes one
    step past a string leaf resolves to a single character. *)
Theorem index_into_string_resolves_to_a_character
    (payload : json) (cp s : string) (i : nat) (a : ascii) :
  follow payload (Str.split cp ".") = Ok (JStr s) ->
  String.get i s = Some a ->
  follow payload (Str.split (cp ++ "." ++ index_token i) ".")
  = Ok (JStr (String a ""))
  /\ resolve payload (JStr (cp ++ "." ++ index_token i))
     = Ok (Some (String a ""), Some (cp ++ "." ++ index_token i)).
Proof.
  intros Hf Hget.
  assert (follow payload (Str.split (cp ++ "." ++ index_token i) ".")
          = Ok (JStr (String a ""))) as Hfollow.
  { change (cp ++ "." ++ index_token i) with (cp ++ String "." (index_token i)).
    rewrite split_at_separator, follow_app, Hf. cbn [bind].
    rewrite (split_without _ _ (contains_dot_index_token i)). cbn [follow].
    unfold index_token. rewrite path_step_int. cbn [getitem bind].
    pose proof (get_some_lt _ _ _ Hget) as Hlt.
    destruct (Z.ltb_spec (Z.of_nat i) 0); [lia|].
    destruct (Z.leb_spec 0 (Z.of_nat i)); [|lia].
    destruct (Z.ltb_spec (Z.of_nat i) (Z.of_nat (String.length s))); [|lia].
    cbn [andb]. now rewrite Nat2Z.id, Hget. }
  split; [exact Hfollow|].
  apply (resolve_explicit _ _ (JStr (String a ""))); [|exact Hfollow|reflexivity|discriminate].
  destruct cp; discriminate.
Qed.

(** A step succeeds only when the segment and the value are of matching
    kinds: a bracketed segment on a sequence or a string, any other
    segment on a mapping (where a missing key gives [None]).  A key of the
    bracketed form can therefore never be reached by a path. *)
Theorem path_step_needs_matching_kinds (cur : json) (p : string) (v : json) :
  path_step cur p = Ok v ->
  (Str.startswith p "[" && Str.endswith p "]" = true
   /\ ((exists l, cur = JList l) \/ (exists s, cur = JStr s)))
  \/ (Str.startswith p "[" && Str.endswith p "]" = false
      /\ exists d, cur = JDict d /\ v = dict_get d p JNone).
Proof.
  unfold path_step.
  destruct (Str.startswith p "[" && Str.endswith p "]").
  - intros H. left. split; [reflexivity|].
    destruct (Str.int (Str.slice_1_m1 p)) as [z|e]; [|discriminate].
    destruct cur; try discriminate; eauto.
  - intros H. right. split; [reflexivity|].
    destruct cur; try discriminate. injection H as <-. eauto.
Qed.

(* ================================================================== *)
(** * Further properties of the request handler *)

Lemma split_join_sep (c : ascii) (parts : list string) :
  parts <> [] ->
  Forall (fun t => Str.contains t c = false) parts ->
  Str.split (Str.join (String c "") parts) c = parts.
Proof.
  intros Hne H. induction H as [|t ts Ht Hts IH]; [congruence|].
  destruct ts as [|t' ts].
  - simpl. now apply split_without.
  - rewrite join_cons2.
    change (String c "" ++ Str.join (String c "") (t' :: ts))
      with (String c (Str.join (String c "") (t' :: ts))).
    rewrite (split_app _ _ _ Ht). now rewrite IH by discriminate.
Qed.

Lemma filter_all_strings ls : filter is_str_int_float (map JStr ls) = map JStr ls.
Proof. induction ls as [|x ls IH]; simpl; [reflexivity|]. now rewrite IH. Qed.

Lemma str_of_strings ls : map str (map JStr ls) = ls.
Proof. induction ls as [|x ls IH]; simpl; [reflexivity|]. now rewrite IH. Qed.

(** A non-empty sequence of strings without newlines normalizes to a text
    whose lines are exactly those strings, in order; the text is usable
    as soon as one of the strings is not empty. *)
Theorem normalize_code_joins_lines (ls : list string) :
  ls <> [] ->
  Forall (fun t => Str.contains t Str.newline = false) ls ->
  exists text,
    normalize_code (JList (map JStr ls)) = Some text
    /\ Str.split text Str.newline = ls
    /\ (Exists (fun t => t <> "") ls -> unusable (Some text) = false).
Proof.
  intros Hne Hls. exists (Str.join (String Str.newline "") ls).
  split; [|split].
  - cbn [normalize_code]. now rewrite filter_all_strings, str_of_strings.
  - now apply split_join_sep.
  - intros Hex. apply unusable_false. intros Hempty.
    assert (Str.split (Str.join (String Str.newline "") ls) Str.newline = [""]) as Hs
        by (now rewrite Hempty).
    rewrite (split_join_sep _ _ Hne Hls) in Hs. subst ls.
    inversion Hex as [? ? Hx|? ? Hx]; [congruence | inversion Hx].
Qed.

(** The loop over the common fields stops at the first truthy value even
    when that value normalizes to nothing usable: the later common fields
    are then not consulted, and the answer rests on the extractor alone. *)
Theorem unusable_common_field_hides_later_fields
    (d : list (string * json)) (code_path : json) (st1 : resolution)
    (before : list string) (common : string) (after : list string) :
  try_explicit_path (JDict d) code_path = Ok st1 ->
  unusable (fst st1) = true ->
  COMMON_FIELDS = (before ++ common :: after)%list ->
  Forall (fun k => truthy (dict_get d k JNone) = false) before ->
  truthy (dict_get d common JNone) = true ->
  unusable (normalize_code (dict_get d common JNone)) = true ->
  resolve (JDict d) code_path
  = Ok (auto_extract (JDict d) (normalize_code (dict_get d common JNone), Some common))
  /\ (extract_code_from_json (JDict d) = (None, None) ->
      forall b,
        b <> [] ->
        dict_get b "payload" (JDict b) = JDict d ->
        py_or (dict_get b "code_path" JNone) JNone = code_path ->
        explain_json_route (JDict b) = ([], Error400 "No code found")).
Proof.
  intros He Hu Hsplit Hbefore Hcommon Hun.
  assert (resolve (JDict d) code_path
          = Ok (auto_extract (JDict d)
                  (normalize_code (dict_get d common JNone), Some common))) as Hr.
  { rewrite (resolve_after_explicit _ _ _ He Hu).
    rewrite (try_common_fields_first d _ st1 _ _ _ Hsplit Hbefore Hcommon).
    cbn [bind fst]. now rewrite Hun. }
  split; [exact Hr|].
  intros Hnone b Hb Hp Hcp. rewrite (route_nonempty _ Hb), Hp, Hcp, Hr.
  unfold auto_extract. rewrite Hnone. reflexivity.
Qed.

Lemma extract_text_has_path o code path :
  extract_code_from_json o = (Some code, path) -> exists p, path = Some p.
Proof.
  unfold extract_code_from_json.
  destruct (walk o [] []); [discriminate|].
  destruct (sort_desc _) as [|[[? ?] ?] ?]; [discriminate|].
  intros [= _ <-]. eauto.
Qed.

Lemma string_app_empty (s : string) : s ++ "" = s.
Proof. induction s; simpl; congruence. Qed.

Lemma try_common_fields_result payload commons st st' :
  try_common_fields payload commons st = Ok st' ->
  st' = st
  \/ exists d common,
       payload = JDict d /\ In common commons
       /\ truthy (dict_get d common JNone) = true
       /\ st' = (normalize_code (dict_get d common JNone), Some common).
Proof.
  induction commons as [|k ks IH]; simpl.
  - intros [= <-]. now left.
  - destruct payload; try discriminate. cbn [method_get bind].
    destruct (truthy (dict_get d k JNone)) eqn:Ht.
    + intros [= <-]. right. exists d, k. auto.
    + intros H. destruct (IH H) as [->|(d' & c & [= <-] & Hin & Htc & ->)];
        [now left|].
      right. exists d, c. auto.
Qed.

Lemma route_success_inv body prompts r :
  explain_json_route body = (prompts, Json200 r) ->
  exists b c,
    body = JDict b /\ b <> []
    /\ resolve (dict_get b "payload" body)
               (py_or (dict_get b "code_path" JNone) JNone)
       = Ok (Some c, extracted_path r)
    /\ c <> ""
    /\ prompts = [make_prompt (py_or (dict_get b "language" JNone) (JStr "unspecified")) c]
    /\ language r = py_or (dict_get b "language" JNone) (JStr "unspecified")
    /\ extracted_preview r = make_preview c.
Proof.
  unfold explain_json_route.
  destruct (truthy body) eqn:Ht; cbn [negb]; [|discriminate].
  destruct body as [| | | | | |b]; try discriminate.
  destruct (resolve _ _) as [[[c|] up]|e] eqn:Hr; try discriminate.
  destruct (String.eqb_spec c "") as [->|Hne]; [discriminate|].
  unfold answer. destruct (generate_content _) as [resp|]; [|discriminate].
  intros [= <- <-]. exists b, c. cbn [extracted_path extracted_preview language].
  repeat split; try assumption; try reflexivity.
  intros ->. discriminate Ht.
Qed.

Lemma try_common_fields_inv d commons st st' :
  try_common_fields (JDict d) commons st = Ok st' ->
  (st' = st /\ Forall (fun k => truthy (dict_get d k JNone) = false) commons)
  \/ exists before common after,
       commons = (before ++ common :: after)%list
       /\ Forall (fun k => truthy (dict_get d k JNone) = false) before
       /\ truthy (dict_get d common JNone) = true
       /\ st' = (normalize_code (dict_get d common JNone), Some common).
Proof.
  induction commons as [|k ks IH]; simpl.
  - intros [= <-]. left. split; [reflexivity | constructor].
  - destruct (truthy (dict_get d k JNone)) eqn:Ht.
    + intros [= <-]. right. exists [], k, ks. repeat split; [constructor | exact Ht].
    + intros H. destruct (IH H) as [[-> Hall]|(before & c & after & -> & Hb & Hc & ->)].
      * left. split; [reflexivity | now constructor].
      * right. exists (k :: before), c, after.
        repeat split; [now constructor | exact Hc].
Qed.

(** The path of a success answer is never missing, and is the label of
    the strategy that found the code the answer is about (the code of the
    prompt and of the preview).  Either the walk along the [code_path] of
    the request ends on a value whose normal form is that code, and the
    path is that [code_path]; or the explicit stage gave nothing usable,
    the code is the normal form of the first truthy common field of a
    mapping payload, and the path is the name of that field; or the first
    two stages gave nothing usable, the extractor returned that code, and
    the path is the one the extractor returned with it. *)
Theorem success_path_names_the_strategy
    (body : json) (prompts : list string) (r : success) :
  explain_json_route body = (prompts, Json200 r) ->
  exists b c,
    body = JDict b
    /\ c <> ""
    /\ prompts = [make_prompt (py_or (dict_get b "language" JNone) (JStr "unspecified")) c]
    /\ extracted_preview r = make_preview c
    /\ ((exists cp cur,
            dict_get b "code_path" JNone = JStr cp
            /\ follow (dict_get b "payload" body) (Str.split cp ".") = Ok cur
            /\ normalize_code cur = Some c
            /\ extracted_path r = Some cp)
        \/ (exists st1 d before common after,
               try_explicit_path (dict_get b "payload" body)
                 (py_or (dict_get b "code_path" JNone) JNone) = Ok st1
               /\ unusable (fst st1) = true
               /\ dict_get b "payload" body = JDict d
               /\ COMMON_FIELDS = (before ++ common :: after)%list
               /\ Forall (fun k => truthy (dict_get d k JNone) = false) before
               /\ truthy (dict_get d common JNone) = true
               /\ normalize_code (dict_get d common JNone) = Some c
               /\ extracted_path r = Some common)
        \/ (exists st1 st2 auto_path,
               try_explicit_path (dict_get b "payload" body)
                 (py_or (dict_get b "code_path" JNone) JNone) = Ok st1
               /\ unusable (fst st1) = true
               /\ try_common_fields (dict_get b "payload" body) COMMON_FIELDS st1 = Ok st2
               /\ unusable (fst st2) = true
               /\ extract_code_from_json (dict_get b "payload" body)
                  = (Some c, Some auto_path)
               /\ extracted_path r = Some auto_path)).
Proof.
  intros Hroute.
  destruct (route_success_inv _ _ _ Hroute)
    as (b & c & -> & Hb & Hr & Hc & Hprompts & _ & Hprev).
  exists b, c. split; [reflexivity|]. split; [exact Hc|].
  split; [exact Hprompts|]. split; [exact Hprev|].
  set (payload := dict_get b "payload" (JDict b)) in *.
  apply unusable_false in Hc.
  destruct (resolve_cases _ _ _ Hr)
    as [(st1 & He & H1 & <-)
       |[(st1 & st2 & He & H1 & Hcm & H2 & <-)
        |(st1 & st2 & He & H1 & Hcm & H2 & Hst)]].
  - left. unfold try_explicit_path, py_or in He.
    destruct (truthy (dict_get b "code_path" JNone)) eqn:Ht;
      [|cbn in He; injection He as He; discriminate He].
    rewrite Ht in He.
    destruct (dict_get b "code_path" JNone) as [| | | |cp| |]; try discriminate.
    destruct (follow payload (Str.split cp ".")) as [cur|e] eqn:Hf; [|discriminate].
    injection He as Hn Hp. exists cp, cur. repeat split; congruence.
  - right; left.
    destruct payload as [| | | | | |d] eqn:Hp; try discriminate Hcm.
    destruct (try_common_fields_inv _ _ _ _ Hcm)
      as [[Heq _]|(before & common & after & Hsplit & Hbefore & Ht & Heq)].
    + rewrite <- Heq in H1. cbn [fst] in H1. congruence.
    + exists st1, d, before, common, after.
      repeat split; try assumption; congruence.
  - right; right. unfold auto_extract in Hst.
    destruct (extract_code_from_json payload) as [cv ap] eqn:Hx.
    destruct (unusable cv) eqn:Hcv.
    + injection Hst as <- _. cbn [fst] in *. congruence.
    + injection Hst as <- <-.
      destruct (extract_text_has_path _ _ _ Hx) as [p ->].
      exists st1, st2, p. repeat split; assumption.
Qed.

(** The generation service is called at most once per request, and
    exactly when the resolution ends with a usable code; the prompt then
    holds that code and the language label. *)
Theorem generation_called_once_iff_code_resolved (body : json) :
  (fst (explain_json_route body) = []
   \/ exists prompt, fst (explain_json_route body) = [prompt])
  /\ (fst (explain_json_route body) <> []
      <-> exists b c up,
            body = JDict b /\ b <> []
            /\ resolve (dict_get b "payload" body)
                       (py_or (dict_get b "code_path" JNone) JNone)
               = Ok (Some c, up)
            /\ c <> "")
  /\ (forall b c up,
        body = JDict b -> b <> [] ->
        resolve (dict_get b "payload" body)
                (py_or (dict_get b "code_path" JNone) JNone) = Ok (Some c, up) ->
        c <> "" ->
        fst (explain_json_route body)
        = [make_prompt (py_or (dict_get b "language" JNone) (JStr "unspecified")) c]).
Proof.
  assert (Hcall : forall b c up,
             body = JDict b -> b <> [] ->
             resolve (dict_get b "payload" body)
                     (py_or (dict_get b "code_path" JNone) JNone) = Ok (Some c, up) ->
             c <> "" ->
             fst (explain_json_route body)
             = [make_prompt (py_or (dict_get b "language" JNone) (JStr "unspecified")) c]).
  { intros b c up -> Hb Hr Hc. rewrite (route_usable _ _ _ Hb Hr Hc).
    destruct (answer_reply b c up) as [[resp ->]| ->]; reflexivity. }
  assert (Hnone : fst (explain_json_route body) <> [] ->
                  exists b c up,
                    body = JDict b /\ b <> []
                    /\ resolve (dict_get b "payload" body)
                               (py_or (dict_get b "code_path" JNone) JNone)
                       = Ok (Some c, up)
                    /\ c <> "").
  { unfold explain_json_route.
    destruct (truthy body) eqn:Ht; cbn [negb fst]; [|congruence].
    destruct body as [| | | | | |b]; cbn [fst]; try congruence.
    destruct (resolve _ _) as [[[c|] up]|e] eqn:Hr; cbn [fst]; try congruence.
    destruct (String.eqb_spec c "") as [->|Hne]; cbn [fst]; [congruence|].
    intros _. exists b, c, up. repeat split; try assumption.
    intros ->. discriminate Ht. }
  split; [|split; [split|]].
  - destruct (fst (explain_json_route body)) as [|p ps] eqn:Hf; [now left|].
    right. destruct Hnone as (b & c & up & Hb & Hne & Hr & Hc); [discriminate|].
    pose proof (Hcall b c up Hb Hne Hr Hc) as Hp. injection Hp as -> ->. eauto.
  - exact Hnone.
  - intros (b & c & up & Hb & Hne & Hr & Hc).
    rewrite (Hcall b c up Hb Hne Hr Hc). discriminate.
  - exact Hcall.
Qed.

(** A body posted by the page is never answered [Invalid request]; and
    when the pasted document is not a JSON object and no path is typed,
    the handler ends in an unhandled exception, whatever the document
    holds. *)
Theorem page_requests (parsed : json) (code_path_input : string) :
  snd (explain_json_route (page_body parsed code_path_input))
  <> Error400 "Invalid request"
  /\ (js_trim code_path_input = "" ->
      (forall d, parsed <> JDict d) ->
      explain_json_route (page_body parsed code_path_input) = ([], Unhandled)).
Proof.
  split.
  - unfold page_body. rewrite route_nonempty by discriminate.
    destruct (resolve _ _) as [[[c|] up]|e]; try discriminate.
    destruct (String.eqb c ""); [discriminate|].
    destruct (answer_reply
                [("payload", parsed);
                 ("code_path",
                  if String.eqb (js_trim code_path_input) "" then JNone
                  else JStr (js_trim code_path_input))] c up) as [[resp ->]| ->];
      discriminate.
  - intros Ht Hp. unfold page_body. rewrite Ht. cbn [String.eqb].
    rewrite route_nonempty by discriminate.
    change (dict_get [("payload", parsed); ("code_path", JNone)] "payload"
              (JDict [("payload", parsed); ("code_path", JNone)])) with parsed.
    change (py_or (dict_get [("payload", parsed); ("code_path", JNone)] "code_path" JNone)
              JNone) with JNone.
    now rewrite (resolve_non_mapping_raises parsed JNone (None, None) Hp eq_refl eq_refl).
Qed.

(** The preview never has more than 2016 characters, and always starts
    with the first [min(len, 2000)] characters of the code. *)
Theorem preview_is_bounded (c : string) :
  (String.length (make_preview c) <= 2016)%nat
  /\ String.length (make_preview c)
     = (if (String.length c <=? 2000)%nat then String.length c else 2016%nat)
  /\ exists rest,
       make_preview c = Str.slice_to (Nat.min (String.length c) 2000) c ++ rest.
Proof.
  unfold make_preview.
  destruct (Nat.leb_spec (String.length c) 2000) as [Hle|Hgt].
  - split; [lia|]. split; [reflexivity|].
    exists "". rewrite Nat.min_l by exact Hle.
    unfold Str.slice_to.
    rewrite <- (string_app_empty c) at 3. now rewrite substring_0_app, string_app_empty.
  - assert (String.length (Str.slice_to 2000 c ++ TRUNCATED) = 2016%nat) as Hlen.
    { rewrite string_length_app. unfold Str.slice_to.
      rewrite substring_0_length by lia. reflexivity. }
    split; [lia|]. split; [exact Hlen|].
    exists TRUNCATED. now rewrite Nat.min_r by lia.
Qed.

Lemma auto_extract_from_nothing payload :
  auto_extract payload (None, None) = extract_code_from_json payload.
Proof.
  unfold auto_extract.
  destruct (extract_code_from_json payload) as [[code|] path] eqn:Hx.
  - destruct (extract_text_has_path _ _ _ Hx) as [p ->].
    assert (code <> "") as Hne.
    { intros ->. destruct (extract_leaf _ _ _ Hx) as (bf & leaf & af & Hf & Hc & _).
      assert (In leaf (filter qualifies (leaves payload))) as Hin
          by (rewrite Hf; apply in_elt).
      apply filter_In in Hin as [_ Hq]. unfold qualifies in Hq.
      rewrite <- Hc in Hq. discriminate. }
    now rewrite (proj2 (unusable_false code) Hne).
  - cbn [unusable snd].
    revert Hx. unfold extract_code_from_json.
    destruct (walk payload [] []); [now intros [= <-]|].
    destruct (sort_desc _) as [|[[? ?] ?] ?]; [now intros [= <-] | discriminate].
Qed.

(** Without a [code_path], and with none of the four common fields
    holding a truthy value, the code and the path the handler resolves
    are exactly what the extractor returns for the payload. *)
Theorem resolve_defaults_to_the_extractor (d : list (string * json)) :
  Forall (fun k => truthy (dict_get d k JNone) = false) COMMON_FIELDS ->
  resolve (JDict d) JNone = Ok (extract_code_from_json (JDict d)).
Proof.
  intros Hall. unfold resolve. cbn [try_explicit_path truthy bind fst unusable].
  rewrite (try_common_fields_none d COMMON_FIELDS (None, None) Hall).
  cbn [bind fst unusable]. now rewrite auto_extract_from_nothing.
Qed.

End WithBuiltins.

(* ================================================================== *)
(** * The properties at sample inputs *)

Example extract_result_answer :
  extract_code_from_json doc_result_answer
  = (Some ("def f(x):" ++ NL ++ "    return x+1"), Some "result.answer").
Proof. reflexivity. Qed.

Example resolve_empty_code :
  resolve sample_repr_float sample_repr_str doc_empty_code JNone
  = Ok (Some "print(x+y)", Some "data.[2]").
Proof. reflexivity. Qed.

Example common_fields_all_falsy :
  try_common_fields sample_repr_float sample_repr_str doc_empty_code
    COMMON_FIELDS (None, None)
  = Ok (None, None).
Proof. apply try_common_fields_none. repeat constructor. Qed.

Example extract_empty_code :
  extract_code_from_json doc_empty_code = (Some "print(x+y)", Some "data.[2]").
Proof. reflexivity. Qed.

Example code_token_examples :
  Re.search CODE_TOKEN_RE "x=>1" = true
  /\ Re.search CODE_TOKEN_RE "x => 1" = false
  /\ Re.search CODE_TOKEN_RE "IF   (x)" = true
  /\ Re.search CODE_TOKEN_RE "undefined" = false
  /\ Re.search CODE_TOKEN_RE "Console.Log" = true.
Proof. repeat split. Qed.

Example int_examples :
  Str.int " -1_0 " = Ok (-10)%Z
  /\ Str.int "1__0" = Raise ValueError
  /\ Str.int "" = Raise ValueError
  /\ Str.int "+7" = Ok 7%Z.
Proof. repeat split. Qed.

(** An entry added to a nested mapping: the text returned moves from [b]
    to the new leaf [a.y], of the same score. *)
Example nested_entry_comes_first :
  extract_code_from_json
    (JDict [("a", JDict [("x", JStr "short")]); ("b", JStr "0123456789")])
  = (Some "0123456789", Some "b")
  /\ score "abcdefghij" = score "0123456789"
  /\ extract_code_from_json
       (JDict [("a", JDict ([("x", JStr "short")] ++ [("y", JStr "abcdefghij")]));
               ("b", JStr "0123456789")])
     = (Some "abcdefghij", Some "a.y").
Proof. repeat split. Qed.

(** A code token outweighs one newline: 20 against 10. *)
Example token_outweighs_one_newline :
  score ("plain words" ++ NL ++ "more words") = 10%Z
  /\ score "let x = 1 + 2" = 20%Z
  /\ extract_code_from_json
       (JList [JStr ("plain words" ++ NL ++ "more words"); JStr "let x = 1 + 2"])
     = (Some "let x = 1 + 2", Some "[1]").
Proof. repeat split. Qed.

(** The length that counts is the one after trimming: 9 characters between
    spaces give no candidate, 10 do. *)
Example padded_leaf_of_9 :
  extract_code_from_json (JDict [("a", JStr "     123456789     ")]) = (None, None)
  /\ extract_code_from_json (JDict [("a", JStr "     1234567890     ")])
     = (Some "1234567890", Some "a").
Proof. repeat split. Qed.

(** The marker a cut preview ends with: a newline and 15 characters. *)
Example truncation_marker :
  TRUNCATED = NL ++ "... (truncated)"
  /\ String.length TRUNCATED = 16%nat
  /\ make_preview (filler 2001) = filler 2000 ++ NL ++ "... (truncated)"
  /\ make_preview (filler 2000) = filler 2000.
Proof. repeat split; vm_compute; reflexivity. Qed.

(** C1 at [doc_two_leaves]: the second leaf has more newlines and wins. *)
Lemma extract_two_leaves_more_newlines :
  extract_code_from_json doc_two_leaves
  = (Some ("first line" ++ NL ++ "second line"), Some "snippet").
Proof.
  destruct (extract_scores_and_takes_greatest doc_two_leaves) as (_ & _ & _ & _ & H).
  apply (H ([Key "snippet"], "first line" ++ NL ++ "second line")
           ([Key "note"], "just some words")).
  - right. reflexivity.
  - reflexivity.
  - reflexivity.
Defined.


(** C4, as stated, at [doc_data_list]: the path is ["data.[0]"], with a
    ['.'] before the bracket, and not the glued form ["data[0]"]. *)
Lemma index_token_is_not_glued :
  snd (extract_code_from_json doc_data_list) = Some "data.[0]"
  /\ render_adjacent [Key "data"; Index 0] = "data[0]"
  /\ snd (extract_code_from_json doc_data_list)
     <> Some (render_adjacent [Key "data"; Index 0]).
Proof. repeat split. discriminate. Qed.

(** C4, as the code has it, at [doc_data_list]. *)
Lemma extract_data_list_path :
  exists leaf,
    In leaf (leaves doc_data_list) /\ qualifies leaf = true
    /\ "print('hello')" = Str.strip (snd leaf)
    /\ "data.[0]" = Str.join "." (map render_token (fst leaf)).
Proof.
  apply (proj1 (extract_path_joins_every_token_with_dot doc_data_list)
           "print('hello')" "data.[0]").
  reflexivity.
Defined.

(** C5 at [doc_code_and_items] with [code_path = "items.[0]"]: the payload
    has a [code] field, and the value at the path is used. *)
Lemma resolve_prefers_code_path :
  resolve sample_repr_float sample_repr_str doc_code_and_items (JStr "items.[0]")
  = Ok (Some "print('from path')", Some "items.[0]")
  /\ forall b,
       b <> [] ->
       dict_get b "payload" (JDict b) = doc_code_and_items ->
       dict_get b "code_path" JNone = JStr "items.[0]" ->
       explain_json_route sample_repr_float sample_repr_str unit
         sample_generate sample_explanation (JDict b)
       = answer sample_repr_float sample_repr_str unit sample_generate
           sample_explanation b "print('from path')" (Some "items.[0]").
Proof.
  apply (proj1 (proj2 (resolution_takes_first_success
                         sample_repr_float sample_repr_str unit sample_generate
                         sample_explanation doc_code_and_items))
           "items.[0]" (JStr "print('from path')") "print('from path')").
  - discriminate.
  - reflexivity.
  - reflexivity.
  - discriminate.
Defined.

(** C6, at the request [{"payload": ["print('hello')"], "code_path": "[5]"}].
    The walk fails with [IndexError] and the explicit stage recovers from
    it, with no code.  The common-field stage then calls [payload.get] on
    a list: the [AttributeError] is caught nowhere and the request ends in
    it, before the extractor is run, which finds the code of this payload
    at [[0]].  The failure is not recovered and the handler does not fall
    through to the extractor, although a sequence is a payload the
    explicit path and the extractor both serve: with [code_path = "[0]"]
    the same payload is resolved. *)
Theorem failed_path_on_sequence_payload_raises :
  follow doc_top_list (Str.split "[5]" ".") = Raise IndexError
  /\ try_explicit_path sample_repr_float sample_repr_str doc_top_list (JStr "[5]")
     = Ok (None, None)
  /\ try_common_fields sample_repr_float sample_repr_str doc_top_list
       COMMON_FIELDS (None, None)
     = Raise AttributeError
  /\ resolve sample_repr_float sample_repr_str doc_top_list (JStr "[5]")
     = Raise AttributeError
  /\ explain_json_route sample_repr_float sample_repr_str unit
       sample_generate sample_explanation request_top_list_5
     = ([], Unhandled)
  /\ extract_code_from_json doc_top_list = (Some "print('hello')", Some "[0]")
  /\ resolve sample_repr_float sample_repr_str doc_top_list (JStr "[0]")
     = Ok (Some "print('hello')", Some "[0]").
Proof. repeat split. Qed.

(** C7, as stated, at [[True, "x", None]]: the boolean is kept. *)
Lemma normalize_code_keeps_booleans :
  normalize_code sample_repr_float sample_repr_str
    (JList [JBool true; JStr "x"; JNone])
  = Some ("True" ++ NL ++ "x")
  /\ Str.join NL (map (str sample_repr_float sample_repr_str)
                     (filter is_str_or_number [JBool true; JStr "x"; JNone]))
     = "x"
  /\ normalize_code sample_repr_float sample_repr_str
       (JList [JBool true; JStr "x"; JNone])
     <> Some (Str.join NL (map (str sample_repr_float sample_repr_str)
                             (filter is_str_or_number [JBool true; JStr "x"; JNone]))).
Proof. repeat split. discriminate. Qed.

(** C8, as stated, at the empty mapping: every strategy gives nothing,
    and the answer is [Invalid request], not [No code found]. *)
Lemma empty_mapping_is_invalid_request :
  resolve sample_repr_float sample_repr_str (JDict []) JNone = Ok (None, None)
  /\ explain_json_route sample_repr_float sample_repr_str unit
       sample_generate sample_explanation (JDict [])
     = ([], Error400 "Invalid request")
  /\ snd (explain_json_route sample_repr_float sample_repr_str unit
            sample_generate sample_explanation (JDict []))
     <> Error400 "No code found".
Proof. repeat split. discriminate. Qed.

(** C8, as the code has it, at [{"payload": {}}]: no code, no prompt. *)
Lemma no_code_found_sends_no_prompt :
  fst (explain_json_route sample_repr_float sample_repr_str unit
         sample_generate sample_explanation (JDict [("payload", JDict [])]))
  = [].
Proof.
  destruct (proj2 (proj2 (route_rejections
                            sample_repr_float sample_repr_str unit sample_generate
                            sample_explanation (JDict [("payload", JDict [])])))
              [("payload", JDict [])] eq_refl) as (_ & H & _).
  - discriminate.
  - apply H. reflexivity.
Defined.

(** C9 at a string of 2500 characters. *)
Lemma preview_of_2500 :
  make_preview (filler 2500) = Str.slice_to 2000 (filler 2500) ++ TRUNCATED
  /\ String.length (Str.slice_to 2000 (filler 2500)) = 2000%nat.
Proof.
  apply (proj1 (proj2 (proj2 (preview_cut_at_2000
                                sample_repr_float sample_repr_str unit sample_generate
                                sample_explanation)))).
  vm_compute. reflexivity.
Defined.

(** C10 at [doc_result_answer]. *)
Lemma result_answer_walks_back :
  exists s,
    follow doc_result_answer (Str.split "result.answer" ".") = Ok (JStr s)
    /\ Str.strip s = "def f(x):" ++ NL ++ "    return x+1"
    /\ try_explicit_path sample_repr_float sample_repr_str doc_result_answer
         (JStr "result.answer")
       = Ok (Some s, Some "result.answer").
Proof.
  apply (extracted_path_walks_back sample_repr_float sample_repr_str).
  - simpl. repeat split; repeat constructor; simpl; tauto.
  - simpl. repeat split; reflexivity.
  - reflexivity.
  - discriminate.
Defined.

(* ================================================================== *)
(** * The further properties at sample inputs *)

(** [doc_code_and_items] with [code_path = "items.[5]"], past the end of
    the sequence: the [code] field is used. *)
Lemma resolve_falls_back_to_code :
  resolve sample_repr_float sample_repr_str doc_code_and_items (JStr "items.[5]")
  = Ok (Some "print('from code')", Some "code").
Proof.
  destruct (failed_path_falls_through
              sample_repr_float sample_repr_str unit sample_generate sample_explanation
              doc_code_and_items "items.[5]") as (_ & _ & _ & H).
  - discriminate.
  - left. exists IndexError. reflexivity.
  - apply (H _ "print('from code')" eq_refl); [reflexivity | reflexivity | discriminate].
Defined.

Lemma extract_padded_is_trimmed :
  (exists p, Some "text" = Some p)
  /\ (10 <= String.length "print('hello')")%nat
  /\ Str.strip "print('hello')" = "print('hello')".
Proof.
  apply (extract_code_is_trimmed doc_padded "print('hello')" (Some "text")).
  reflexivity.
Defined.

Lemma extract_same_text_in_list_and_dict :
  fst (extract_code_from_json doc_data_list)
  = fst (extract_code_from_json doc_top_list).
Proof.
  apply extract_text_depends_on_leaf_strings. reflexivity.
Defined.

Lemma extract_data_list_with_later_prose :
  extract_code_from_json
    (JDict ([("data", JList [JStr "print('hello')"])]
            ++ [("note", JStr "plain words here")]))
  = (Some "print('hello')", Some "data.[0]").
Proof.
  apply (proj1 (extract_unchanged_by_later_entry
                  "print('hello')" "data.[0]" (JStr "plain words here")
                  ltac:(repeat constructor; intros _; vm_compute; discriminate))).
  reflexivity.
Defined.

Lemma code_and_items_paths_distinct :
  NoDup (map rendered_path (leaves doc_code_and_items)).
Proof.
  apply leaf_paths_are_distinct.
  simpl. repeat split; repeat constructor; simpl; intuition discriminate.
Defined.

Lemma last_element_by_negative_index :
  (exists v,
      nth_error [JStr "first"; JStr "last"] (Z.to_nat (2 + -1)) = Some v
      /\ path_step (JList [JStr "first"; JStr "last"]) ("[" ++ Str.of_int (-1) ++ "]")
         = Ok v)
  /\ path_step (JList [JStr "first"; JStr "last"]) ("[" ++ Str.of_int 2 ++ "]")
     = Raise IndexError.
Proof.
  split.
  - apply (proj1 (proj2 (index_segment_on_sequence [JStr "first"; JStr "last"] (-1)))).
    simpl. lia.
  - apply (proj2 (proj2 (index_segment_on_sequence [JStr "first"; JStr "last"] 2))).
    + simpl. lia.
    + vm_compute. reflexivity.
Defined.

Lemma short_string_first_character :
  follow doc_short (Str.split ("a" ++ "." ++ index_token 0) ".") = Ok (JStr "h")
  /\ resolve sample_repr_float sample_repr_str doc_short
       (JStr ("a" ++ "." ++ index_token 0))
     = Ok (Some "h", Some ("a" ++ "." ++ index_token 0)).
Proof.
  apply (index_into_string_resolves_to_a_character
           sample_repr_float sample_repr_str doc_short "a" "hello" 0 "h");
    reflexivity.
Defined.

Lemma key_step_on_mapping :
  (Str.startswith "a" "[" && Str.endswith "a" "]" = true
   /\ ((exists l, doc_short = JList l) \/ (exists s, doc_short = JStr s)))
  \/ (Str.startswith "a" "[" && Str.endswith "a" "]" = false
      /\ exists d, doc_short = JDict d /\ JStr "hello" = dict_get d "a" JNone).
Proof.
  apply (path_step_needs_matching_kinds doc_short "a" (JStr "hello")). reflexivity.
Defined.

Lemma normalize_two_lines :
  exists text,
    normalize_code sample_repr_float sample_repr_str
      (JList (map JStr ["x = 1"; "y = 2"])) = Some text
    /\ Str.split text Str.newline = ["x = 1"; "y = 2"]
    /\ (Exists (fun t => t <> "") ["x = 1"; "y = 2"] -> unusable (Some text) = false).
Proof.
  apply (normalize_code_joins_lines sample_repr_float sample_repr_str).
  - discriminate.
  - repeat constructor.
Defined.

Lemma null_code_hides_source :
  resolve sample_repr_float sample_repr_str doc_null_code JNone
  = Ok (auto_extract doc_null_code
          (normalize_code sample_repr_float sample_repr_str
             (dict_get [("code", JList [JNone]); ("source", JStr "x = 1")] "code" JNone),
           Some "code"))
  /\ (extract_code_from_json doc_null_code = (None, None) ->
      forall b,
        b <> [] ->
        dict_get b "payload" (JDict b) = doc_null_code ->
        py_or (dict_get b "code_path" JNone) JNone = JNone ->
        explain_json_route sample_repr_float sample_repr_str unit
          sample_generate sample_explanation (JDict b)
        = ([], Error400 "No code found")).
Proof.
  apply (unusable_common_field_hides_later_fields
           sample_repr_float sample_repr_str unit sample_generate sample_explanation
           [("code", JList [JNone]); ("source", JStr "x = 1")] JNone (None, None)
           [] "code" ["source"; "snippet"; "text"]).
  - reflexivity.
  - reflexivity.
  - reflexivity.
  - constructor.
  - reflexivity.
  - reflexivity.
Defined.

Lemma success_path_of_items :
  exists b c,
    request_items_0 = JDict b
    /\ c <> ""
    /\ [make_prompt sample_repr_float sample_repr_str (JStr "unspecified")
          "print('from path')"]
       = [make_prompt sample_repr_float sample_repr_str
            (py_or (dict_get b "language" JNone) (JStr "unspecified")) c]
    /\ extracted_preview sample_success = make_preview c
    /\ ((exists cp cur,
            dict_get b "code_path" JNone = JStr cp
            /\ follow (dict_get b "payload" request_items_0) (Str.split cp ".") = Ok cur
            /\ normalize_code sample_repr_float sample_repr_str cur = Some c
            /\ extracted_path sample_success = Some cp)
        \/ (exists st1 d before common after,
               try_explicit_path sample_repr_float sample_repr_str
                 (dict_get b "payload" request_items_0)
                 (py_or (dict_get b "code_path" JNone) JNone) = Ok st1
               /\ unusable (fst st1) = true
               /\ dict_get b "payload" request_items_0 = JDict d
               /\ COMMON_FIELDS = (before ++ common :: after)%list
               /\ Forall (fun k => truthy (dict_get d k JNone) = false) before
               /\ truthy (dict_get d common JNone) = true
               /\ normalize_code sample_repr_float sample_repr_str
                    (dict_get d common JNone) = Some c
               /\ extracted_path sample_success = Some common)
        \/ (exists st1 st2 auto_path,
               try_explicit_path sample_repr_float sample_repr_str
                 (dict_get b "payload" request_items_0)
                 (py_or (dict_get b "code_path" JNone) JNone) = Ok st1
               /\ unusable (fst st1) = true
               /\ try_common_fields sample_repr_float sample_repr_str
                    (dict_get b "payload" request_items_0) COMMON_FIELDS st1 = Ok st2
               /\ unusable (fst st2) = true
               /\ extract_code_from_json (dict_get b "payload" request_items_0)
                  = (Some c, Some auto_path)
               /\ extracted_path sample_success = Some auto_path)).
Proof.
  apply (success_path_names_the_strategy
           sample_repr_float sample_repr_str unit sample_generate sample_explanation
           request_items_0
           [make_prompt sample_repr_float sample_repr_str (JStr "unspecified")
              "print('from path')"]
           sample_success).
  reflexivity.
Defined.

Lemma page_with_top_level_list_raises :
  fst (extract_code_from_json doc_top_list) = Some "print('hello')"
  /\ explain_json_route sample_repr_float sample_repr_str unit
       sample_generate sample_explanation (page_body doc_top_list "  ")
     = ([], Unhandled).
Proof.
  split; [reflexivity|].
  apply (proj2 (page_requests sample_repr_float sample_repr_str unit
                  sample_generate sample_explanation doc_top_list "  ")).
  - reflexivity.
  - discriminate.
Defined.

Lemma resolve_empty_code_is_extractor :
  resolve sample_repr_float sample_repr_str doc_empty_code JNone
  = Ok (extract_code_from_json doc_empty_code).
Proof.
  apply (resolve_defaults_to_the_extractor sample_repr_float sample_repr_str).
  repeat constructor.
Defined.
